(** * LFAudio: a queue-driven audio player (LFAudio.py, class Player)

    A shallow embedding of the player's state and of the methods that
    sequence playback (writeToStream, dequeue, nextTrack, loopTrack,
    loopQueue, play/pause/stop, jumpTo, shuffle, queueSingle, setVolume,
    setVolumeDB), followed by the properties proved about them.

    Python values that reach the methods as arguments are kept dynamic
    ([pyval]); every method is a computation in a small state, exception
    and console monad over the [Player] record. *)

From Stdlib Require Import ZArith List String Bool Lia Reals Lra.
From stdpp Require Import base list.
Import ListNotations.

Local Open Scope string_scope.
Local Open Scope list_scope.
Local Open Scope Z_scope.
Set Warnings "-register-all".

(** ** Python values, exceptions and the console *)

(** The argument values the public methods are called with.  A float is
    only ever met as a wrongly typed argument; it carries a rational. *)
Inductive pyval : Type :=
| PyNone
| PyBool (b : bool)
| PyInt (z : Z)
| PyFloat (num : Z) (den : positive)
| PyStr (s : string)
| PyList (l : list pyval).

(** [isinstance(v, int)]: bool is a subclass of int. *)
Definition isinstance_int (v : pyval) : bool :=
  match v with PyInt _ | PyBool _ => true | _ => false end.

Definition isinstance_str (v : pyval) : bool :=
  match v with PyStr _ => true | _ => false end.

(** The integer an int (or bool) object stands for. *)
Definition int_value (v : pyval) : option Z :=
  match v with
| PyInt z => Some z
| PyBool b => Some (Z.b2z b)
| _ => None
  end.

(** [v == "current"], [v == None]. *)
Definition eq_str (v : pyval) (s : string) : bool :=
  match v with PyStr t => String.eqb t s | _ => false end.

Definition is_None (v : pyval) : bool :=
  match v with PyNone => true | _ => false end.

Inductive exn : Type :=
| AttributeError | TypeError | IndexError | ValueError
| ZeroDivisionError | LibsndfileError.

#[export] Instance exn_eq_dec : EqDecision exn.
Proof. solve_decision. Defined.

(** One call of [L.pln(a, b, ...)]: the arguments it was given. *)
Definition line : Type := list pyval.

(** ** Python list indexing, slicing, pop and item assignment *)

Section PyList.
Context {A : Type}.

(** [l[i]] for an int [i]: negative indices count from the end. *)
Definition norm_index (n : nat) (i : Z) : option nat :=
  if (0 <=? i) && (i <? Z.of_nat n) then Some (Z.to_nat i)
  else if (- Z.of_nat n <=? i) && (i <? 0) then Some (Z.to_nat (i + Z.of_nat n))
  else None.

Definition py_getitem (l : list A) (i : Z) : option A :=
  match norm_index (length l) i with
  | Some k => l !! k
  | None => None
  end.

Definition py_setitem (l : list A) (i : Z) (x : A) : option (list A) :=
  match norm_index (length l) i with
  | Some k => Some (<[k:=x]> l)
  | None => None
  end.

Definition py_pop (l : list A) (i : Z) : option (list A) :=
  match norm_index (length l) i with
  | Some k => Some (delete k l)
  | None => None
  end.

(** A slice bound clamped the way [l[a:b]] does it. *)
Definition clamp_bound (n : nat) (i : Z) : nat :=
  if i <? 0 then Z.to_nat (Z.max 0 (i + Z.of_nat n))
  else Z.to_nat (Z.min i (Z.of_nat n)).

(** [l[a:b]] *)
Definition py_slice (l : list A) (a b : Z) : list A :=
  let lo := clamp_bound (length l) a in
  let hi := clamp_bound (length l) b in
  take (hi - lo) (drop lo l).

(** [l[:b]] *)
Definition py_slice_to (l : list A) (b : Z) : list A :=
  take (clamp_bound (length l) b) l.
End PyList.

(** ** Samples and numpy arrays *)

(** The scalar type of amplitudes and of the volume, with the two
    operations the render path uses. *)
Class Scalar (F : Type) : Type := { szero : F; smul : F -> F -> F }.

#[export] Instance Scalar_Z : Scalar Z := {| szero := 0; smul := Z.mul |}.
#[export] Instance Scalar_R : Scalar R := {| szero := 0%R; smul := Rmult |}.

(** A stereo frame. *)
Definition frame (F : Type) : Type := (F * F)%type.

Section Arrays.
Context {F : Type} `{Scalar F}.

Definition zero_frame : frame F := (szero, szero).

(** [np.multiply(sample, volume)], [sample * volume] *)
Definition scale (v : F) (s : frame F) : frame F := (smul (fst s) v, smul (snd s) v).

(** What numpy makes of the operands of [np.append(.., axis=0)] and of
    [outdata[:] = ..]: an empty Python list becomes a 1-dimensional
    array of shape (0,), a list of n >= 1 frames and [np.zeros((n, 2))]
    become 2-dimensional arrays of shape (n, 2). *)
Inductive ndarray : Type :=
| Shape0
| ShapeN2 (rows : list (frame F)).

Definition asarray (l : list (frame F)) : ndarray :=
  match l with
  | [] => Shape0
  | _ => ShapeN2 l
  end.

(** [np.zeros((n, 2))]; a negative dimension is a ValueError. *)
Definition np_zeros (n : Z) : option ndarray :=
  if n <? 0 then None else Some (ShapeN2 (replicate (Z.to_nat n) zero_frame)).

(** [np.append(a, b, axis=0)] is [concatenate((a, b), axis=0)]: both
    operands must have the same number of dimensions, else ValueError. *)
Definition np_append (a b : ndarray) : option ndarray :=
  match a, b with
  | Shape0, Shape0 => Some Shape0
  | ShapeN2 x, ShapeN2 y => Some (ShapeN2 (x ++ y))
  | _, _ => None
  end.

(** [outdata[:] = a] for an [outdata] of shape (l, 2): the new content of
    [outdata].  Shape (l, 2) is copied, shape (1, 2) is broadcast, every
    other shape is a ValueError. *)
Definition assign_outdata (l : nat) (a : ndarray) : option (list (frame F)) :=
  match a with
  | Shape0 => None
  | ShapeN2 rows =>
      if Nat.eqb (length rows) l then Some rows
      else match rows with
           | [r] => Some (replicate l r)
           | _ => None
           end
  end.
End Arrays.

(** ** The player *)

(** The fields of [Player.__init__].  The stream, the threads and the two
    pending callbacks are not part of the sequencing state. *)
Record Player (F : Type) : Type := mkPlayer {
  queuePos : option Z;
  loading : bool;
  sources : list string;
  loops : list Z;
  data : list (list (frame F));
  ramBuffer : Z;
  samplingrate : Z;
  playing : bool;
  endTrack : bool;
  endQueue : bool;
  queueLoops : Z;
  queueLoopsRemaining : Z;
  callPos : Z;
  volume : F;
  targetVolume : option F;
  volumeChange : option F;
  settingDelay : F;
  end_ : bool
}.

Arguments mkPlayer {F}.
Arguments queuePos {F} _.
Arguments loading {F} _.
Arguments sources {F} _.
Arguments loops {F} _.
Arguments data {F} _.
Arguments ramBuffer {F} _.
Arguments samplingrate {F} _.
Arguments playing {F} _.
Arguments endTrack {F} _.
Arguments endQueue {F} _.
Arguments queueLoops {F} _.
Arguments queueLoopsRemaining {F} _.
Arguments callPos {F} _.
Arguments volume {F} _.
Arguments targetVolume {F} _.
Arguments volumeChange {F} _.
Arguments settingDelay {F} _.
Arguments end_ {F} _.

(** Field updates, one per attribute the methods assign. *)
Definition set_queuePos {F} (v : option Z) (p : Player F) : Player F :=
  {| queuePos := v; loading := loading p; sources := sources p; loops :=
     loops p; data := data p; ramBuffer := ramBuffer p; samplingrate :=
     samplingrate p; playing := playing p; endTrack := endTrack p;
     endQueue := endQueue p; queueLoops := queueLoops p;
     queueLoopsRemaining := queueLoopsRemaining p; callPos := callPos p;
     volume := volume p; targetVolume := targetVolume p; volumeChange :=
     volumeChange p; settingDelay := settingDelay p; end_ := end_ p |}.

Definition set_loading {F} (v : bool) (p : Player F) : Player F :=
  {| queuePos := queuePos p; loading := v; sources := sources p; loops :=
     loops p; data := data p; ramBuffer := ramBuffer p; samplingrate :=
     samplingrate p; playing := playing p; endTrack := endTrack p;
     endQueue := endQueue p; queueLoops := queueLoops p;
     queueLoopsRemaining := queueLoopsRemaining p; callPos := callPos p;
     volume := volume p; targetVolume := targetVolume p; volumeChange :=
     volumeChange p; settingDelay := settingDelay p; end_ := end_ p |}.

Definition set_sources {F} (v : list string) (p : Player F) : Player F :=
  {| queuePos := queuePos p; loading := loading p; sources := v; loops :=
     loops p; data := data p; ramBuffer := ramBuffer p; samplingrate :=
     samplingrate p; playing := playing p; endTrack := endTrack p;
     endQueue := endQueue p; queueLoops := queueLoops p;
     queueLoopsRemaining := queueLoopsRemaining p; callPos := callPos p;
     volume := volume p; targetVolume := targetVolume p; volumeChange :=
     volumeChange p; settingDelay := settingDelay p; end_ := end_ p |}.

Definition set_loops {F} (v : list Z) (p : Player F) : Player F :=
  {| queuePos := queuePos p; loading := loading p; sources := sources p;
     loops := v; data := data p; ramBuffer := ramBuffer p; samplingrate :=
     samplingrate p; playing := playing p; endTrack := endTrack p;
     endQueue := endQueue p; queueLoops := queueLoops p;
     queueLoopsRemaining := queueLoopsRemaining p; callPos := callPos p;
     volume := volume p; targetVolume := targetVolume p; volumeChange :=
     volumeChange p; settingDelay := settingDelay p; end_ := end_ p |}.

Definition set_data {F} (v : list (list (frame F))) (p : Player F) : Player F :=
  {| queuePos := queuePos p; loading := loading p; sources := sources p;
     loops := loops p; data := v; ramBuffer := ramBuffer p; samplingrate
     := samplingrate p; playing := playing p; endTrack := endTrack p;
     endQueue := endQueue p; queueLoops := queueLoops p;
     queueLoopsRemaining := queueLoopsRemaining p; callPos := callPos p;
     volume := volume p; targetVolume := targetVolume p; volumeChange :=
     volumeChange p; settingDelay := settingDelay p; end_ := end_ p |}.

Definition set_playing {F} (v : bool) (p : Player F) : Player F :=
  {| queuePos := queuePos p; loading := loading p; sources := sources p;
     loops := loops p; data := data p; ramBuffer := ramBuffer p;
     samplingrate := samplingrate p; playing := v; endTrack := endTrack p;
     endQueue := endQueue p; queueLoops := queueLoops p;
     queueLoopsRemaining := queueLoopsRemaining p; callPos := callPos p;
     volume := volume p; targetVolume := targetVolume p; volumeChange :=
     volumeChange p; settingDelay := settingDelay p; end_ := end_ p |}.

Definition set_endTrack {F} (v : bool) (p : Player F) : Player F :=
  {| queuePos := queuePos p; loading := loading p; sources := sources p;
     loops := loops p; data := data p; ramBuffer := ramBuffer p;
     samplingrate := samplingrate p; playing := playing p; endTrack := v;
     endQueue := endQueue p; queueLoops := queueLoops p;
     queueLoopsRemaining := queueLoopsRemaining p; callPos := callPos p;
     volume := volume p; targetVolume := targetVolume p; volumeChange :=
     volumeChange p; settingDelay := settingDelay p; end_ := end_ p |}.

Definition set_endQueue {F} (v : bool) (p : Player F) : Player F :=
  {| queuePos := queuePos p; loading := loading p; sources := sources p;
     loops := loops p; data := data p; ramBuffer := ramBuffer p;
     samplingrate := samplingrate p; playing := playing p; endTrack :=
     endTrack p; endQueue := v; queueLoops := queueLoops p;
     queueLoopsRemaining := queueLoopsRemaining p; callPos := callPos p;
     volume := volume p; targetVolume := targetVolume p; volumeChange :=
     volumeChange p; settingDelay := settingDelay p; end_ := end_ p |}.

Definition set_queueLoops {F} (v : Z) (p : Player F) : Player F :=
  {| queuePos := queuePos p; loading := loading p; sources := sources p;
     loops := loops p; data := data p; ramBuffer := ramBuffer p;
     samplingrate := samplingrate p; playing := playing p; endTrack :=
     endTrack p; endQueue := endQueue p; queueLoops := v;
     queueLoopsRemaining := queueLoopsRemaining p; callPos := callPos p;
     volume := volume p; targetVolume := targetVolume p; volumeChange :=
     volumeChange p; settingDelay := settingDelay p; end_ := end_ p |}.

Definition set_queueLoopsRemaining {F} (v : Z) (p : Player F) : Player F :=
  {| queuePos := queuePos p; loading := loading p; sources := sources p;
     loops := loops p; data := data p; ramBuffer := ramBuffer p;
     samplingrate := samplingrate p; playing := playing p; endTrack :=
     endTrack p; endQueue := endQueue p; queueLoops := queueLoops p;
     queueLoopsRemaining := v; callPos := callPos p; volume := volume p;
     targetVolume := targetVolume p; volumeChange := volumeChange p;
     settingDelay := settingDelay p; end_ := end_ p |}.

Definition set_callPos {F} (v : Z) (p : Player F) : Player F :=
  {| queuePos := queuePos p; loading := loading p; sources := sources p;
     loops := loops p; data := data p; ramBuffer := ramBuffer p;
     samplingrate := samplingrate p; playing := playing p; endTrack :=
     endTrack p; endQueue := endQueue p; queueLoops := queueLoops p;
     queueLoopsRemaining := queueLoopsRemaining p; callPos := v; volume :=
     volume p; targetVolume := targetVolume p; volumeChange :=
     volumeChange p; settingDelay := settingDelay p; end_ := end_ p |}.




(** ** The monad of the methods

    A method runs on the player, may print lines, and either returns,
    raises, or stays in a polling loop that only another thread can end. *)
Inductive outcome (S A : Type) : Type :=
| Returned (a : A) (s : S) (out : list line)
| Raised (e : exn) (s : S) (out : list line)
| Waiting (s : S) (out : list line).

Arguments Returned {S A} a s out.
Arguments Raised {S A} e s out.
Arguments Waiting {S A} s out.

Definition M (S A : Type) : Type := S -> outcome S A.

Definition printed_before {S A} (o : list line) (r : outcome S A) : outcome S A :=
  match r with
  | Returned a s o' => Returned a s (o ++ o')
  | Raised e s o' => Raised e s (o ++ o')
  | Waiting s o' => Waiting s (o ++ o')
  end.

(** The state a call leaves behind, however it ends. *)
Definition state_after {S A} (r : outcome S A) : S :=
  match r with
  | Returned _ s _ | Raised _ s _ | Waiting s _ => s
  end.

Definition ret {S A} (a : A) : M S A := fun s => Returned a s [].

Definition bind {S A B} (m : M S A) (k : A -> M S B) : M S B :=
  fun s =>
    match m s with
    | Returned a s1 o1 => printed_before o1 (k a s1)
    | Raised e s1 o1 => Raised e s1 o1
    | Waiting s1 o1 => Waiting s1 o1
    end.

Definition raise {S A} (e : exn) : M S A := fun s => Raised e s [].

Definition wait_forever {S A} : M S A := fun s => Waiting s [].

Definition get {S} : M S S := fun s => Returned s s [].

Definition modify {S} (f : S -> S) : M S unit := fun s => Returned tt (f s) [].

(** [L.pln(...)] *)
Definition pln {S} (args : line) : M S unit := fun s => Returned tt s [args].

(** The value of a partial list operation, or the exception it raises. *)
Definition or_raise {S A} (e : exn) (o : option A) : M S A :=
  match o with
  | Some a => ret a
  | None => raise e
  end.

Declare Scope py_scope.
Delimit Scope py_scope with py.
Notation "'let*' x ':=' m 'in' k" := (bind m (fun x => k))
  (at level 10, x pattern, m at level 100, k at level 200) : py_scope.
Notation "m ';;' k" := (bind m (fun _ => k))
  (at level 100, k at level 200, right associativity) : py_scope.
Local Open Scope py_scope.

(** [try: body  except exc: handler  finally: final] *)
Definition try_except_finally {S A} (body : M S A) (exc : exn) (handler : M S A)
    (final : M S unit) : M S A :=
  fun s =>
    match body s with
    | Returned a s1 o1 => printed_before o1 ((final ;; ret a) s1)
    | Raised e s1 o1 =>
        if decide (e = exc)
        then printed_before o1 ((let* a := handler in final ;; ret a) s1)
        else printed_before o1 ((final ;; raise e) s1)
    | Waiting s1 o1 => Waiting s1 o1
    end.

(** ** The methods of [Player] *)

(** A double quote, for the messages that quote a name. *)
Definition dq : string := String (Ascii.ascii_of_nat 34) EmptyString.

(** The public operations that check an argument, as calls. *)
Inductive call : Type :=
| Dequeue (position : pyval)
| LoopTrack (track loops_arg : pyval)
| LoopQueue (loops_arg : pyval)
| JumpTo (timepos : pyval)
| QueueSingle (source : pyval).

Section Methods.
Context {F : Type} `{Scalar F}.

Definition Py (A : Type) : Type := M (Player F) A.

(** [self.queuePos] used as an index or in arithmetic: None is a TypeError. *)
Definition queuePos_int : Py Z :=
  let* p := get in or_raise TypeError (queuePos p).

(** [self.queuePos.value]: [queuePos] holds an int or None, and neither
    has an attribute [value]. *)
Definition queuePos_value : Py Z :=
  let* p := get in
  match queuePos p with
  | Some _ => raise AttributeError
  | None => raise AttributeError
  end.

(** *** Transport *)

Definition stop : Py unit :=
  modify (set_playing false) ;;
  modify (set_callPos 0).

Definition play : Py unit :=
  let* p := get in
  if Nat.eqb (length (sources p)) 0
  then pln [PyStr "You must add an audio track to the queue first."]
  else modify (set_playing true).

Definition pause : Py unit := modify (set_playing false).

Definition playPause : Py unit :=
  let* p := get in
  if playing p then pause else play.

Definition nextTrack : Py unit :=
  let* p := get in
  if Nat.eqb (length (sources p)) 0
  then pln [PyStr "You must add an audio track to the queue first."]
  else
    modify (set_callPos 0) ;;
    (if match queuePos p with
        | Some q => q =? Z.of_nat (length (sources p)) - 1
        | None => false
        end && negb (queueLoopsRemaining p =? 0)
     then stop ;; modify (set_queueLoopsRemaining (queueLoops p))
     else ret tt) ;;
    let* q := queuePos_int in
    modify (set_queuePos (Some ((q + 1) mod Z.of_nat (length (sources p))))) ;;
    pln [PyStr "next track"].

Definition loopTrack (track loops_arg : pyval) : Py unit :=
  match int_value loops_arg with
  | None => pln [PyStr ("Argument " ++ dq ++ "loop" ++ dq ++ " must be an integer.")]
  | Some n =>
      let* p := get in
      let track :=
        if is_None track
        then match queuePos p with Some q => PyInt q | None => PyNone end
        else track in
      let* i := or_raise TypeError (int_value track) in
      let* loops' := or_raise IndexError (py_setitem (loops p) i n) in
      modify (set_loops loops')
  end.

Definition loopQueue (loops_arg : pyval) : Py unit :=
  match int_value loops_arg with
  | None => pln [PyStr ("Argument " ++ dq ++ "loop" ++ dq ++ " must be an integer.")]
  | Some n =>
      modify (set_queueLoops n) ;;
      modify (set_queueLoopsRemaining n)
  end.

(** *** The render callback *)

(** Lines 149-151: append the head of the (possibly new) current track
    and write the buffer. *)
Definition refill (l : nat) (dataOut : list (frame F)) : Py (list (frame F)) :=
  let* p := get in
  let* qp := queuePos_int in
  let* track := or_raise IndexError (py_getitem (data p) qp) in
  let head := map (scale (volume p)) (py_slice_to track (callPos p)) in
  let* dataOut := or_raise ValueError (np_append (asarray dataOut) (asarray head)) in
  or_raise ValueError (assign_outdata l dataOut).

(** [writeToStream(outdata)] for an [outdata] of [l] frames; the value
    returned is what the call wrote into [outdata]. *)
Definition writeToStream (l : nat) : Py (list (frame F)) :=
  let* p := get in
  if negb (playing p) then ret (replicate l zero_frame)
  else
    let* qp := queuePos_int in
    let* track := or_raise IndexError (py_getitem (data p) qp) in
    let dataOut :=
      map (scale (volume p)) (py_slice track (callPos p) (callPos p + Z.of_nat l)) in
    modify (set_callPos (callPos p + Z.of_nat l)) ;;
    if callPos p + Z.of_nat l >=? Z.of_nat (length track) then
      modify (set_callPos (Z.of_nat l - Z.of_nat (length dataOut))) ;;
      let* n := or_raise IndexError (py_getitem (loops p) qp) in
      if n >? 1 then
        let* loops' := or_raise IndexError (py_setitem (loops p) qp (n - 1)) in
        modify (set_loops loops') ;;
        refill l dataOut
      else if n =? 1 then
        modify (set_endTrack true) ;;
        if qp + 1 =? Z.of_nat (length (sources p)) then
          modify (set_queuePos (Some 0)) ;;
          if queueLoopsRemaining p >? 1 then
            modify (set_queueLoopsRemaining (queueLoopsRemaining p - 1)) ;;
            pln [PyStr "next track"] ;;
            refill l dataOut
          else if queueLoopsRemaining p =? 1 then
            modify (set_endQueue true) ;;
            let* zeros :=
              or_raise ValueError (np_zeros (Z.of_nat l - Z.of_nat (length dataOut))) in
            let* dataOut := or_raise ValueError (np_append (asarray dataOut) zeros) in
            let* written := or_raise ValueError (assign_outdata l dataOut) in
            stop ;;
            modify (set_queueLoopsRemaining (queueLoops p)) ;;
            ret written
          else
            pln [PyStr "next track"] ;;
            refill l dataOut
        else
          modify (set_queuePos (Some (qp + 1))) ;;
          pln [PyStr "next track"] ;;
          refill l dataOut
      else refill l dataOut
    else or_raise ValueError (assign_outdata l (asarray dataOut)).

(** [n] render calls in a row, each for [l] frames. *)
Fixpoint render_calls (n l : nat) : Py (list (list (frame F))) :=
  match n with
  | O => ret []
  | S n' =>
      let* b := writeToStream l in
      let* bs := render_calls n' l in
      ret (b :: bs)
  end.

(** *** Queue editing *)

Definition dequeue (position : pyval) : Py unit :=
  let* p := get in
  if Nat.eqb (length (sources p)) 0
  then pln [PyStr "The queue is already empty."]
  else
    let* position :=
      if eq_str position "current"
      then (let* v := queuePos_value in ret (PyInt v))
      else ret position in
    match int_value position with
    | None => pln [PyStr ("Argument " ++ dq ++ "position" ++ dq ++ " must be an integer.")]
    | Some pos =>
        if (pos <? 0) || (pos >=? Z.of_nat (length (sources p)))
        then pln [PyStr ("Argument " ++ dq ++ "position" ++ dq
                  ++ " must be non-negative and less than the number of queued audio tracks.")]
        else
          let* sources' := or_raise IndexError (py_pop (sources p) pos) in
          modify (set_sources sources') ;;
          let* loops' := or_raise IndexError (py_pop (loops p) pos) in
          modify (set_loops loops') ;;
          let* data' := or_raise IndexError (py_pop (data p) pos) in
          modify (set_data data') ;;
          let goNext :=
            match queuePos p with Some q => q =? pos | None => false end in
          let* q := queuePos_int in
          (if q >=? pos then modify (set_queuePos (Some (q - 1))) else ret tt) ;;
          (if Nat.eqb (length sources') 0
           then stop ;; modify (set_queuePos None)
           else ret tt) ;;
          if goNext then nextTrack else ret tt
    end.

(** [list.insert(i, x)] *)
Definition py_insert {A} (l : list A) (i : Z) (x : A) : list A :=
  let k := clamp_bound (length l) i in take k l ++ x :: drop k l.

Section Collaborators.

(** [L.timeToSeconds] of LFLib, which is not part of this file. *)
Variable timeToSeconds : string -> Z.

Definition jumpTo (timepos : pyval) : Py unit :=
  let* p := get in
  match
    match timepos with
    | PyInt _ | PyBool _ => option_map (fun t => t * samplingrate p) (int_value timepos)
    | PyStr s => Some (timeToSeconds s * samplingrate p)
    | _ => None
    end
  with
  | None => pln [PyStr "Given position: "; timepos; PyStr " is not in a valid format."]
  | Some pos =>
      let* qp := queuePos_value in
      let* track := or_raise IndexError (py_getitem (data p) qp) in
      if (pos >=? Z.of_nat (length track)) || (pos <? 0)
      then pln [PyStr "Given position: "; timepos;
                PyStr " is outside of the current tracks bounds."]
      else modify (set_callPos pos)
  end.

(** The order [random.shuffle] leaves a list in, and [L.reorder] of LFLib. *)
Variable random_shuffle : list Z -> list Z.
Variable reorder : forall A : Type, list A -> list Z -> list A.

Definition shuffle (keepPos : bool) : Py unit :=
  let* p := get in
  let order := map Z.of_nat (seq 0 (length (sources p))) in
  let* order :=
    if keepPos then
      let* i := queuePos_value in
      let* order := or_raise IndexError (py_pop order i) in
      let order := random_shuffle order in
      let* i := queuePos_value in
      let* x := queuePos_value in
      ret (py_insert order i x)
    else ret (random_shuffle order) in
  modify (fun q => set_sources (reorder _ (sources q) order) q) ;;
  modify (fun q => set_loops (reorder _ (loops q) order) q) ;;
  modify (fun q => set_data (reorder _ (data q) order) q).

(** What [soundfile] reports about a file and reads from it. *)
Record SoundFile : Type := mkSoundFile {
  frames : Z;
  channels : Z;
  samplerate : Z;
  mono_samples : list F;
  stereo_samples : list (frame F)
}.

(** [sf.SoundFile(source)] (None: LibsndfileError), the value of
    [psutil.virtual_memory().available] and [sr.resample(data, ratio, ..)]
    with [ratio] the quotient of the two rates. *)
Variable open_file : string -> option SoundFile.
Variable available : Z.
Variable resample : list (frame F) -> Z -> Z -> list (frame F).

Definition queueSingle (source : pyval) : Py bool :=
  match source with
  | PyStr src =>
      try_except_finally
        (pln [PyStr ("Loading " ++ dq); source; PyStr (dq ++ "...")] ;;
         let* p := get in
         (if loading p then pln [PyStr "Waiting to complete pending loading..."]
          else ret tt) ;;
         (if loading p && negb (end_ p) then wait_forever else ret tt) ;;
         modify (set_loading true) ;;
         let* f := or_raise LibsndfileError (open_file src) in
         if frames f * 4 * 8 >? available - ramBuffer p then
           pln [PyStr "The file is too large for the system memory."] ;;
           modify (set_loading false) ;;
           ret false
         else
           let decoded :=
             if channels f =? 1 then map (fun s => (s, s)) (mono_samples f)
             else stereo_samples f in
           (if samplerate f =? 0 then raise ZeroDivisionError else ret tt) ;;
           let* decoded :=
             if samplingrate p =? samplerate f then ret decoded
             else
               pln [PyStr dq; source; PyStr (dq
                    ++ " has a non-standard sampling rate. It will be resampled.")] ;;
               pln [PyStr dq; source; PyStr (dq ++ " successfully resampled.")] ;;
               ret (resample decoded (samplingrate p) (samplerate f)) in
           (if Nat.eqb (length (sources p)) 0 then modify (set_queuePos (Some 0))
            else ret tt) ;;
           modify (fun q => set_sources (sources q ++ [src]) q) ;;
           modify (fun q => set_loops (loops q ++ [1]) q) ;;
           modify (fun q => set_data (data q ++ [decoded]) q) ;;
           pln [PyStr dq; source; PyStr (dq ++ " successfully loaded.")] ;;
           modify (set_loading false) ;;
           ret true)
        LibsndfileError
        (pln [PyStr ("Selected source file: " ++ dq); source;
              PyStr (dq ++ " is not an existing audio file.")] ;;
         ret false)
        (modify (set_loading false))
  | _ =>
      pln [PyStr "The path for the source file must be a string."] ;;
      ret false
  end.

(** What a call does and returns (None, or the bool of [queueSingle]). *)
Definition run (c : call) : Py pyval :=
  match c with
  | Dequeue position => dequeue position ;; ret PyNone
  | LoopTrack track loops_arg => loopTrack track loops_arg ;; ret PyNone
  | LoopQueue loops_arg => loopQueue loops_arg ;; ret PyNone
  | JumpTo timepos => jumpTo timepos ;; ret PyNone
  | QueueSingle source => let* ok := queueSingle source in ret (PyBool ok)
  end.

End Collaborators.
End Methods.

(** *** Volume

    The volume arithmetic is stated over the real numbers: the floats of
    the source are idealised.  In the paced branch of [setVolume] a
    volume of 0 is the ZeroDivisionError of [target / self.volume]; a
    target of 0 makes [np.log10] return minus infinity, which has no
    real counterpart, so that branch stands for positive targets only.
    The properties below concern the instant branch. *)







(** *** The settings thread *)




(** ** Calls in a row *)

(** The same method called [n] times. *)
Fixpoint repeated {S} (n : nat) (m : M S unit) : M S unit :=
  match n with
  | O => ret tt
  | S n' => m ;; repeated n' m
  end.

(** ** What the spec says, where it is compared with the code *)

(** The footprint estimate as the spec words it: frames * 4 bytes * 2
    channels. *)
Definition spec_footprint (frame_count : Z) : Z := frame_count * 4 * 2.

(** Queue looping is exhausted, as the spec words it for [nextTrack]: no
    further repeat of the queue is owed, the pass being played is the last. *)
Definition spec_queue_exhausted {F} (p : Player F) : Prop :=
  queueLoopsRemaining p = 1.

(** An invalid argument as the spec words it: a wrong type, or a value
    out of range (a position outside the queue, a negative loop count). *)
Definition spec_invalid {F} (p : Player F) (c : call) : bool :=
  match c with
  | Dequeue position =>
      negb (eq_str position "current")
      && match int_value position with
         | Some i => (i <? 0) || (i >=? Z.of_nat (length (sources p)))
         | None => true
         end
  | LoopTrack track loops_arg =>
      match int_value loops_arg with
      | Some n => n <? 0
      | None => true
      end
      || negb (is_None track)
         && match int_value track with
            | Some i => (i <? 0) || (i >=? Z.of_nat (length (sources p)))
            | None => true
            end
  | LoopQueue loops_arg =>
      match int_value loops_arg with
      | Some n => n <? 0
      | None => true
      end
  | JumpTo timepos => negb (isinstance_int timepos || isinstance_str timepos)
  | QueueSingle source => negb (isinstance_str source)
  end.

(** The arguments the methods check for: an empty queue or an explicit
    position that is no int or lies outside the queue for [dequeue], a
    loop count that is no int, a time that is neither int nor str, a
    source that is no str. *)
Definition checked_invalid {F} (p : Player F) (c : call) : bool :=
  match c with
  | Dequeue position =>
      Nat.eqb (length (sources p)) 0
      || negb (eq_str position "current")
         && match int_value position with
            | Some i => (i <? 0) || (i >=? Z.of_nat (length (sources p)))
            | None => true
            end
  | LoopTrack _ loops_arg => negb (isinstance_int loops_arg)
  | LoopQueue loops_arg => negb (isinstance_int loops_arg)
  | JumpTo timepos => negb (isinstance_int timepos || isinstance_str timepos)
  | QueueSingle source => negb (isinstance_str source)
  end.

(** The line [queueSingle] prints when it refuses a file for its size. *)
Definition capacity_line : line :=
  [PyStr "The file is too large for the system memory."].

(** ** What a method leaves alone *)

(** A method keeps a relation between the state it starts in and the
    state it leaves behind, however it ends. *)
Definition keeps {S A} (R : S -> S -> Prop) (m : M S A) : Prop :=
  forall s, R s (state_after (m s)).

(** The second player has the sources, the track data, the volume and the
    [queueLoops] of the first. *)
Definition same_tracks {F} (p s : Player F) : Prop :=
  sources s = sources p /\ data s = data p
  /\ volume s = volume p /\ queueLoops s = queueLoops p.

(** The track [queueSingle] makes of a file: mono samples go to both
    channels, and the frames are resampled when the rate of the file is
    not the rate of the stream. *)
Definition loaded_track {F} `{Scalar F}
    (resample : list (frame F) -> Z -> Z -> list (frame F))
    (rate : Z) (f : SoundFile) : list (frame F) :=
  let decoded :=
    if channels f =? 1 then map (fun s => (s, s)) (mono_samples f)
    else stereo_samples f in
  if rate =? samplerate f then decoded
  else resample decoded rate (samplerate f).

(** ** Well-formed players *)

(** The three lists of a player describe the same tracks. *)
Definition queue_ok {F} (p : Player F) : Prop :=
  length (loops p) = length (sources p) /\ length (data p) = length (sources p).

(** The cursor points at a queued track and inside it (the invariant of
    the playback cursor). *)
Record cursor_ok {F} (p : Player F) (q : nat) (track : list (frame F)) : Prop := {
  cursor_queuePos : queuePos p = Some (Z.of_nat q);
  cursor_sources : (q < length (sources p))%nat;
  cursor_data : data p !! q = Some track;
  cursor_callPos : 0 <= callPos p < Z.of_nat (length track)
}.

(** The frames left in the current track, scaled: what a call that
    reaches the end of the track has collected before line 119. *)
Definition tail_of {F} `{Scalar F} (p : Player F) (track : list (frame F)) :
    list (frame F) :=
  map (scale (volume p)) (drop (Z.to_nat (callPos p)) track).

(** The player as [__init__] leaves it, for a scalar type with a unit. *)
Definition init {F} (one delay : F) : Player F :=
  {| queuePos := None; loading := false; sources := []; loops := []; data := [];
     ramBuffer := 16777216; samplingrate := 44100; playing := false;
     endTrack := false; endQueue := false; queueLoops := 1;
     queueLoopsRemaining := 1; callPos := 0; volume := one;
     targetVolume := None; volumeChange := None; settingDelay := delay;
     end_ := false |}.

(** ** Players for the examples

    Integer amplitudes make the examples computable. *)

(** A track of [n] frames with amplitudes [base], [base + 1], ... *)
Definition ramp (base : Z) (n : nat) : list (frame Z) :=
  map (fun i => (base + Z.of_nat i, base + Z.of_nat i)) (seq 0 n).

(** A playing player at volume 1 with the given tracks, loop counters,
    queue position and cursor; the queue is played once. *)
Definition demo_player (tracks : list (list (frame Z))) (counters : list Z)
    (pos cursor : Z) : Player Z :=
  set_callPos cursor
    (set_playing true
       (set_queuePos (Some pos)
          (set_data tracks
             (set_loops counters
                (set_sources (replicate (length tracks) "track.wav") (init 1 0)))))).

(** Collaborators for the examples: every time string stands for 90
    seconds, no file opens, no memory is free, resampling is the identity. *)
Definition demo_run : call -> M (Player Z) pyval :=
  run (fun _ => 90) (fun _ => None) 0 (fun d _ _ => d).

(** A file of one stereo frame at the rate of the stream. *)
Definition one_frame_file : SoundFile (F:=Z) :=
  {| frames := 1; channels := 2; samplerate := 44100;
     mono_samples := []; stereo_samples := [(1, 1)] |}.

(** * Properties *)

(** ** Python list operations at in-range, non-negative arguments *)

Lemma norm_index_nat (n q : nat) :
  (q < n)%nat -> norm_index n (Z.of_nat q) = Some q.
Proof.
  intros Hq. unfold norm_index.
  destruct (Z.leb_spec 0 (Z.of_nat q)); [|lia].
  destruct (Z.ltb_spec (Z.of_nat q) (Z.of_nat n)); [|lia].
  cbn. f_equal. lia.
Qed.

Lemma py_getitem_nat {A} (l : list A) (q : nat) (x : A) :
  l !! q = Some x -> py_getitem l (Z.of_nat q) = Some x.
Proof.
  intros Hx. unfold py_getitem.
  rewrite norm_index_nat; [done|]. by eapply lookup_lt_Some.
Qed.

Lemma py_setitem_nat {A} (l : list A) (q : nat) (x : A) :
  (q < length l)%nat -> py_setitem l (Z.of_nat q) x = Some (<[q:=x]> l).
Proof. intros Hq. unfold py_setitem. by rewrite norm_index_nat. Qed.

Lemma py_pop_nat {A} (l : list A) (q : nat) :
  (q < length l)%nat -> py_pop l (Z.of_nat q) = Some (delete q l).
Proof. intros Hq. unfold py_pop. by rewrite norm_index_nat. Qed.

Lemma py_slice_nat {A} (l : list A) (a n : nat) :
  py_slice l (Z.of_nat a) (Z.of_nat a + Z.of_nat n) = take n (drop a l).
Proof.
  unfold py_slice, clamp_bound.
  destruct (Z.ltb_spec (Z.of_nat a) 0); [lia|].
  destruct (Z.ltb_spec (Z.of_nat a + Z.of_nat n) 0); [lia|].
  destruct (decide (a <= length l)%nat) as [Ha|Ha].
  - replace (Z.to_nat (Z.of_nat a `min` Z.of_nat (length l))) with a by lia.
    destruct (decide (a + n <= length l)%nat) as [Hn|Hn].
    + f_equal. lia.
    + rewrite !take_ge; [done| |]; rewrite length_drop; lia.
  - rewrite !drop_ge by lia. by rewrite !take_nil.
Qed.

Lemma py_slice_to_nat {A} (l : list A) (k : nat) :
  py_slice_to l (Z.of_nat k) = take k l.
Proof.
  unfold py_slice_to, clamp_bound.
  destruct (Z.ltb_spec (Z.of_nat k) 0); [lia|].
  destruct (decide (k <= length l)%nat) as [Hk|Hk].
  - f_equal. lia.
  - rewrite !take_ge; [done|lia|lia].
Qed.

(** ** The monad and the array operations *)

Lemma printed_before_nil {S A} (r : outcome S A) : printed_before [] r = r.
Proof. by destruct r. Qed.

#[local] Arguments asarray : simpl never.
#[local] Arguments np_zeros : simpl never.
#[local] Arguments np_append : simpl never.
#[local] Arguments assign_outdata : simpl never.
#[local] Arguments py_getitem : simpl never.
#[local] Arguments py_setitem : simpl never.
#[local] Arguments py_pop : simpl never.
#[local] Arguments py_slice : simpl never.
#[local] Arguments py_slice_to : simpl never.

Section ArrayFacts.
Context {F : Type} `{Scalar F}.

Lemma asarray_nonempty (rows : list (frame F)) :
  (0 < length rows)%nat -> asarray rows = ShapeN2 rows.
Proof. destruct rows; cbn; [lia|done]. Qed.

Lemma np_zeros_nat (k : nat) :
  np_zeros (Z.of_nat k) = Some (ShapeN2 (replicate k (zero_frame (F:=F)))).
Proof.
  unfold np_zeros. destruct (Z.ltb_spec (Z.of_nat k) 0); [lia|].
  by rewrite Nat2Z.id.
Qed.

Lemma assign_outdata_exact (l : nat) (rows : list (frame F)) :
  length rows = l -> assign_outdata l (ShapeN2 rows) = Some rows.
Proof. intros <-. unfold assign_outdata. by rewrite Nat.eqb_refl. Qed.

End ArrayFacts.

(** ** The render callback *)

Section Render.
Context {F : Type} `{Scalar F}.

Lemma writeToStream_silent (p : Player F) (l : nat) :
  playing p = false ->
  writeToStream l p = Returned (replicate l zero_frame) p [].
Proof. intros Hp. unfold writeToStream, bind, get. cbn. by rewrite Hp. Qed.

Lemma render_calls_silent (p : Player F) (n l : nat) :
  playing p = false ->
  render_calls n l p = Returned (replicate n (replicate l zero_frame)) p [].
Proof.
  intros Hp. induction n as [|n IH]; [done|].
  cbn [render_calls]. unfold bind at 1.
  rewrite writeToStream_silent by done. cbn [printed_before].
  unfold bind at 1. rewrite IH. done.
Qed.

(** The frames a playing call takes from the current track: the
    [l] frames from the cursor on, or fewer when the track ends first. *)
Lemma dataOut_length (track : list (frame F)) (v : F) (c l : nat) :
  length (map (scale v) (take l (drop c track))) = (l `min` (length track - c))%nat.
Proof. by rewrite length_map, length_take, length_drop. Qed.



(** Lines 149-151 when the track ended exactly with the buffer: the rest
    is the empty list, which [np.append] refuses next to the frames
    already collected. *)
Lemma refill_aligned (p : Player F) (q : nat) (track dataOut : list (frame F))
    (l : nat) :
  queuePos p = Some (Z.of_nat q) ->
  data p !! q = Some track ->
  callPos p = 0 ->
  (0 < length dataOut)%nat ->
  refill l dataOut p = Raised ValueError p [].
Proof.
  intros Hq Hd Hc Hout.
  destruct p; cbn in *; subst.
  unfold refill, queuePos_int. cbn.
  rewrite (py_getitem_nat _ _ _ Hd). cbn.
  change 0 with (Z.of_nat 0). rewrite py_slice_to_nat.
  rewrite take_0. cbn.
  rewrite asarray_nonempty by lia. done.
Qed.

Lemma state_after_printed_before {S A} (o : list line) (r : outcome S A) :
  state_after (printed_before o r) = state_after r.
Proof. by destruct r. Qed.

(** [refill] reads the player and never assigns to it. *)
Lemma refill_state (p : Player F) (l : nat) (dataOut : list (frame F)) :
  state_after (refill l dataOut p) = p.
Proof.
  unfold refill, queuePos_int, bind, get, or_raise, raise, ret. cbn.
  destruct (queuePos p); cbn; [|done].
  destruct (py_getitem _ _); cbn; [|done].
  destruct (np_append _ _); cbn; [|done].
  by destruct (assign_outdata _ _).
Qed.

Lemma tail_of_length (p : Player F) (q : nat) (track : list (frame F)) :
  cursor_ok p q track ->
  (0 < length (tail_of p track))%nat
  /\ length (tail_of p track) = (length track - Z.to_nat (callPos p))%nat.
Proof.
  intros [_ _ _ Hc]. unfold tail_of. rewrite length_map, length_drop. lia.
Qed.

#[local] Arguments refill : simpl never.

(** The common start of every call that reaches the end of its track. *)
Ltac reach_end p Hd Hn :=
  unfold tail_of;
  destruct p; cbn in *; subst;
  match goal with
  | Hc : 0 <= ?cp < _ |- _ =>
      let c := fresh "c" in
      set (c := Z.to_nat cp);
      let Hcz := fresh in
      assert (Hcz : cp = Z.of_nat c) by lia;
      rewrite Hcz in *; clearbody c; clear Hcz
  end;
  unfold writeToStream; cbn;
  rewrite (py_getitem_nat _ _ _ Hd); cbn;
  rewrite py_slice_nat;
  match goal with
  | |- context [Z.of_nat ?c + Z.of_nat ?l >=? Z.of_nat (length ?t)] =>
      replace (Z.of_nat c + Z.of_nat l >=? Z.of_nat (length t)) with true by lia;
      rewrite (take_ge (drop c t)) by (rewrite length_drop; lia)
  end;
  cbn; rewrite (py_getitem_nat _ _ _ Hn); cbn;
  rewrite ?Nat2Z.id.

Lemma writeToStream_replay (p : Player F) (q : nat) (track : list (frame F))
    (l : nat) (n : Z) :
  playing p = true -> cursor_ok p q track ->
  loops p !! q = Some n -> n <= 0 ->
  callPos p + Z.of_nat l >= Z.of_nat (length track) ->
  writeToStream l p
  = refill l (tail_of p track)
      (set_callPos (Z.of_nat l - Z.of_nat (length (tail_of p track))) p).
Proof.
  intros Hplay [Hq Hs Hd Hc] Hn Hle Hend.
  reach_end p Hd Hn.
  replace (n >? 1) with false by lia. replace (n =? 1) with false by lia.
  by rewrite !printed_before_nil.
Qed.

Lemma writeToStream_loop_again (p : Player F) (q : nat) (track : list (frame F))
    (l : nat) (n : Z) :
  playing p = true -> cursor_ok p q track ->
  loops p !! q = Some n -> 1 < n ->
  callPos p + Z.of_nat l >= Z.of_nat (length track) ->
  writeToStream l p
  = refill l (tail_of p track)
      (set_loops (<[q:=n - 1]> (loops p))
         (set_callPos (Z.of_nat l - Z.of_nat (length (tail_of p track))) p)).
Proof.
  intros Hplay [Hq Hs Hd Hc] Hn Hlt Hend.
  assert (Hql : (q < length (loops p))%nat) by (by eapply lookup_lt_Some).
  reach_end p Hd Hn.
  replace (n >? 1) with true by lia. cbn.
  rewrite py_setitem_nat by done. cbn.
  by rewrite !printed_before_nil.
Qed.

Lemma writeToStream_next (p : Player F) (q : nat) (track : list (frame F))
    (l : nat) :
  playing p = true -> cursor_ok p q track ->
  loops p !! q = Some 1 -> (S q < length (sources p))%nat ->
  callPos p + Z.of_nat l >= Z.of_nat (length track) ->
  writeToStream l p
  = printed_before [[PyStr "next track"]]
      (refill l (tail_of p track)
         (set_queuePos (Some (Z.of_nat (S q)))
            (set_endTrack true
               (set_callPos (Z.of_nat l - Z.of_nat (length (tail_of p track))) p)))).
Proof.
  intros Hplay [Hq Hs Hd Hc] Hn Hlt Hend.
  reach_end p Hd Hn.
  replace (Z.of_nat q + 1 =? Z.of_nat (length sources0)) with false by lia. cbn.
  rewrite !printed_before_nil.
  by replace (Z.of_nat q + 1) with (Z.of_nat (S q)) by lia.
Qed.

Lemma writeToStream_wrap (p : Player F) (q : nat) (track : list (frame F))
    (l : nat) :
  playing p = true -> cursor_ok p q track ->
  loops p !! q = Some 1 -> S q = length (sources p) ->
  queueLoopsRemaining p <> 1 ->
  callPos p + Z.of_nat l >= Z.of_nat (length track) ->
  writeToStream l p
  = printed_before [[PyStr "next track"]]
      (refill l (tail_of p track)
         ((if queueLoopsRemaining p >? 1
           then set_queueLoopsRemaining (queueLoopsRemaining p - 1)
           else fun s => s)
            (set_queuePos (Some 0)
               (set_endTrack true
                  (set_callPos (Z.of_nat l - Z.of_nat (length (tail_of p track))) p))))).
Proof.
  intros Hplay [Hq Hs Hd Hc] Hn Hlast Hrem Hend.
  reach_end p Hd Hn.
  replace (Z.of_nat q + 1 =? Z.of_nat (length sources0)) with true by lia. cbn.
  destruct (Z.gtb_spec queueLoopsRemaining0 1); cbn.
  - by rewrite !printed_before_nil.
  - replace (queueLoopsRemaining0 =? 1) with false by lia. cbn.
    by rewrite !printed_before_nil.
Qed.

(** A call that stays inside the current track. *)
Lemma writeToStream_inside (p : Player F) (q : nat) (track : list (frame F))
    (l : nat) :
  playing p = true -> cursor_ok p q track -> (0 < l)%nat ->
  callPos p + Z.of_nat l < Z.of_nat (length track) ->
  writeToStream l p
  = Returned (map (scale (volume p)) (take l (drop (Z.to_nat (callPos p)) track)))
      (set_callPos (callPos p + Z.of_nat l) p) [].
Proof.
  intros Hplay [Hq Hs Hd Hc] Hl Hin.
  destruct p; cbn in *; subst.
  set (c := Z.to_nat callPos0).
  assert (Hcz : callPos0 = Z.of_nat c) by lia.
  rewrite Hcz in *. clearbody c. clear Hcz.
  unfold writeToStream. cbn.
  rewrite (py_getitem_nat _ _ _ Hd). cbn.
  rewrite py_slice_nat.
  replace (Z.of_nat c + Z.of_nat l >=? Z.of_nat (length track)) with false by lia.
  cbn. rewrite asarray_nonempty, assign_outdata_exact.
  - done.
  - rewrite dataOut_length. lia.
  - rewrite dataOut_length. lia.
Qed.

(** The call that ends the queue (lines 135-145). *)
Lemma writeToStream_queue_end (p : Player F) (q : nat) (track : list (frame F))
    (l : nat) :
  playing p = true -> cursor_ok p q track ->
  loops p !! q = Some 1 -> S q = length (sources p) ->
  queueLoopsRemaining p = 1 ->
  callPos p + Z.of_nat l >= Z.of_nat (length track) ->
  writeToStream l p
  = Returned
      (tail_of p track ++ replicate (l - length (tail_of p track)) zero_frame)
      (set_queueLoopsRemaining (queueLoops p)
         (set_callPos 0 (set_playing false
            (set_endQueue true (set_queuePos (Some 0) (set_endTrack true p))))))
      [].
Proof.
  intros Hplay Hok Hn Hlast Hrem Hend.
  destruct (tail_of_length p q track Hok) as [Hpos Hlen]. revert Hpos Hlen.
  destruct Hok as [Hq Hs Hd Hc].
  reach_end p Hd Hn. intros Hpos Hlen.
  replace (Z.of_nat q + 1 =? Z.of_nat (length sources0)) with true by lia.
  cbn.
  replace (Z.of_nat l - Z.of_nat (length (map (scale volume0) (drop c track))))
    with (Z.of_nat (l - length (map (scale volume0) (drop c track)))) by lia.
  rewrite np_zeros_nat. cbn.
  rewrite asarray_nonempty by lia. unfold np_append at 1. cbn.
  rewrite assign_outdata_exact by (rewrite length_app, length_replicate; lia).
  cbn. done.
Qed.

(** C1 fails where a track ends exactly at the end of the buffer: the
    call has then collected the last frames of the track, the rest to
    append at line 150 is the empty list, and [np.append] raises
    ValueError, so nothing is written; only the call that ends the queue
    (line 139) gets through. *)
Theorem render_aligned_boundary_raises (p : Player F) (q : nat) (track : list (frame F))
    (l : nat) :
  playing p = true -> cursor_ok p q track -> queue_ok p ->
  callPos p + Z.of_nat l = Z.of_nat (length track) ->
  ~ (loops p !! q = Some 1 /\ S q = length (sources p)
     /\ queueLoopsRemaining p = 1) ->
  exists p' out, writeToStream l p = Raised ValueError p' out.
Proof.
  intros Hplay Hok [Hlo Hda] Hal Hnot.
  destruct (tail_of_length p q track Hok) as [Hpos Hlen].
  assert (Hk : Z.of_nat l - Z.of_nat (length (tail_of p track)) = 0)
    by (destruct Hok; lia).
  assert (Hend : callPos p + Z.of_nat l >= Z.of_nat (length track)) by lia.
  pose proof Hok as [Hq Hs Hd Hc].
  destruct (lookup_lt_is_Some_2 (loops p) q) as [n Hn]; [lia|].
  destruct (lookup_lt_is_Some_2 (data p) 0%nat) as [first Hfirst]; [lia|].
  destruct (Z.lt_trichotomy n 1) as [Hlt|[->|Hgt]].
  - rewrite (writeToStream_replay p q track l n) by (done || lia).
    rewrite Hk. rewrite (refill_aligned _ q track); [by eexists _, _|done..].
  - destruct (decide (S q = length (sources p))) as [Hlast|Hmore].
    + rewrite (writeToStream_wrap p q track l) by (done || tauto).
      rewrite Hk.
      rewrite (refill_aligned _ 0 first); [by eexists _, _|..]; [..|done];
        by destruct (_ >? _).
    + destruct (lookup_lt_is_Some_2 (data p) (S q)) as [next Hnext]; [lia|].
      rewrite (writeToStream_next p q track l) by (done || lia).
      rewrite Hk. rewrite (refill_aligned _ (S q) next); [by eexists _, _|done..].
  - rewrite (writeToStream_loop_again p q track l n) by (done || lia).
    rewrite Hk. rewrite (refill_aligned _ q track); [by eexists _, _|done..].
Qed.


(** C2: the render call that reaches the end of the last queued track
    while [queueLoopsRemaining] is 1 writes the rest of the track followed
    by zero frames and nothing from another track, sets [endQueue], stops
    playback, resets [queueLoopsRemaining] to [queueLoops] and returns;
    every later run of render calls writes silence and leaves the player,
    so also [playing = false], as it is. *)
Theorem queue_end_render (p : Player F) (q : nat) (track : list (frame F)) (l : nat) :
  playing p = true ->
  cursor_ok p q track ->
  loops p !! q = Some 1 ->
  S q = length (sources p) ->
  queueLoopsRemaining p = 1 ->
  callPos p + Z.of_nat l >= Z.of_nat (length track) ->
  let written :=
    tail_of p track ++ replicate (l - length (tail_of p track)) zero_frame in
  let p' :=
    set_queueLoopsRemaining (queueLoops p)
      (set_callPos 0 (set_playing false
         (set_endQueue true (set_queuePos (Some 0) (set_endTrack true p))))) in
  writeToStream l p = Returned written p' []
  /\ length written = l
  /\ endQueue p' = true /\ playing p' = false
  /\ queueLoopsRemaining p' = queueLoops p
  /\ forall n l', render_calls n l' p'
       = Returned (replicate n (replicate l' zero_frame)) p' [].
Proof.
  intros Hplay Hok Hn Hlast Hrem Hend written p'.
  destruct (tail_of_length p q track Hok) as [Hpos Hlen].
  split; [by apply (writeToStream_queue_end p q track l)|].
  split; [|repeat split].
  - unfold written. rewrite length_app, length_replicate. destruct Hok. lia.
  - intros n l'. by apply render_calls_silent.
Qed.

End Render.

(** Witness for C2: a last track of 4 frames with the cursor at frame 2
    and a buffer of 3 frames. *)
Lemma queue_end_render_witness :
  let p := demo_player [ramp 10 4; ramp 20 4] [1; 1] 1 2 in
  writeToStream 3 p
  = Returned [(22, 22); (23, 23); (0, 0)]
      (set_queueLoopsRemaining 1
         (set_callPos 0 (set_playing false
            (set_endQueue true (set_queuePos (Some 0) (set_endTrack true p))))))
      [].
Proof.
  refine (proj1 (queue_end_render (demo_player [ramp 10 4; ramp 20 4] [1; 1] 1 2)
                   1%nat (ramp 20 4) 3%nat _ _ _ _ _ _)); try reflexivity.
  - split; cbn; [reflexivity|lia|reflexivity|lia].
  - cbn. lia.
Defined.



(** Witness for C1: two tracks of 4 frames, the cursor at frame 2 and a
    buffer of 2 frames; every track holds 2 frames and the call raises. *)
Lemma render_aligned_boundary_raises_witness :
  let p := demo_player [ramp 10 4; ramp 20 4] [1; 1] 0 2 in
  exists p' out, writeToStream 2 p = Raised ValueError p' out.
Proof.
  apply (render_aligned_boundary_raises
           (demo_player [ramp 10 4; ramp 20 4] [1; 1] 0 2) 0%nat (ramp 10 4) 2%nat).
  - reflexivity.
  - split; cbn; [reflexivity|lia|reflexivity|lia].
  - split; reflexivity.
  - reflexivity.
  - cbn. intros (_ & Hlast & _). discriminate Hlast.
Defined.

(** That call, run: it has moved on to the next track when it raises. *)
Example render_aligned_boundary_run :
  let p := demo_player [ramp 10 4; ramp 20 4] [1; 1] 0 2 in
  Forall (fun t => (2 <= length t)%nat) (data p)
  /\ writeToStream 2 p
     = Raised ValueError
         (set_queuePos (Some 1) (set_endTrack true (set_callPos 0 p)))
         [[PyStr "next track"]].
Proof.
  split; [repeat constructor|]. vm_compute. reflexivity.
Qed.

(** The queue-end test of the spec: one track of 100 zero frames, played
    once in blocks of 10 frames.  The tenth call ends the queue; from the
    eleventh on the player is stopped and writes silence. *)
Example queue_end_after_ten_blocks :
  let p := demo_player [replicate 100 (0, 0)] [1] 0 0 in
  let after9 := state_after (render_calls 9 10 p) in
  let after10 := state_after (render_calls 10 10 p) in
  playing after9 = true /\ endQueue after9 = false
  /\ playing after10 = false /\ endQueue after10 = true
  /\ queueLoopsRemaining after10 = 1
  /\ writeToStream 10 after10 = Returned (replicate 10 (0, 0)) after10 [].
Proof. vm_compute. repeat split. Qed.

(** ** Transport and queue editing *)

Section Queue.
Context {F : Type} `{Scalar F}.

(** [nextTrack] on a non-empty queue, whatever the loop state. *)
Lemma nextTrack_run (p : Player F) (q : Z) :
  sources p <> [] ->
  queuePos p = Some q ->
  let n := Z.of_nat (length (sources p)) in
  nextTrack p
  = Returned tt
      (set_queuePos (Some ((q + 1) mod n))
         (if (q =? n - 1) && negb (queueLoopsRemaining p =? 0)
          then set_queueLoopsRemaining (queueLoops p)
                 (set_callPos 0 (set_playing false (set_callPos 0 p)))
          else set_callPos 0 p))
      [[PyStr "next track"]].
Proof.
  intros Hne Hq n. subst n.
  destruct p; cbn in *; subst.
  unfold nextTrack. cbn.
  destruct sources0 as [|s0 rest]; [done|]. cbn [length Nat.eqb].
  cbn.
  destruct ((q =? _) && negb _); cbn; done.
Qed.

(** C4, as amended: on a non-empty queue [nextTrack] sets [callPos] to 0
    and advances [queuePos] by one modulo the queue length; it stops
    playback and resets [queueLoopsRemaining] to [queueLoops] exactly when
    the current index is the last one and [queueLoopsRemaining] is not 0
    (the queue does not loop for ever), and otherwise leaves [playing] and
    [queueLoopsRemaining] as they are. *)
Theorem nextTrack_advances (p : Player F) (q : Z) :
  sources p <> [] ->
  queuePos p = Some q ->
  let n := Z.of_nat (length (sources p)) in
  exists p',
    nextTrack p = Returned tt p' [[PyStr "next track"]]
    /\ callPos p' = 0
    /\ queuePos p' = Some ((q + 1) mod n)
    /\ (q = n - 1 /\ queueLoopsRemaining p <> 0 ->
        playing p' = false /\ queueLoopsRemaining p' = queueLoops p)
    /\ (~ (q = n - 1 /\ queueLoopsRemaining p <> 0) ->
        playing p' = playing p
        /\ queueLoopsRemaining p' = queueLoopsRemaining p).
Proof.
  intros Hne Hq n. eexists. split; [by apply nextTrack_run|].
  fold n.
  destruct (Z.eqb_spec q (n - 1)) as [Hlast|Hlast];
    destruct (Z.eqb_spec (queueLoopsRemaining p) 0) as [Hinf|Hinf]; cbn;
    repeat split; try done; tauto.
Qed.

(** C3: with three tracks queued and the second one current,
    [dequeue(1)] removes that track from the three lists, leaves
    [queuePos] at index 1, where the former third track now is, and sets
    [callPos] to 0; a playing player then renders that track from its
    first frame. *)
Theorem dequeue_current_of_three (p : Player F) (s0 s1 s2 : string)
    (n0 n1 n2 : Z) (d0 d1 d2 : list (frame F)) :
  sources p = [s0; s1; s2] ->
  loops p = [n0; n1; n2] ->
  data p = [d0; d1; d2] ->
  queuePos p = Some 1 ->
  let p' :=
    set_queuePos (Some 1)
      (set_callPos 0
         (set_data [d0; d2] (set_loops [n0; n2] (set_sources [s0; s2] p)))) in
  dequeue (PyInt 1) p = Returned tt p' [[PyStr "next track"]]
  /\ sources p' !! 1%nat = Some s2
  /\ loops p' !! 1%nat = Some n2
  /\ data p' !! 1%nat = Some d2
  /\ callPos p' = 0
  /\ forall l : nat,
       playing p = true -> (0 < l < length d2)%nat ->
       writeToStream l p'
       = Returned (map (scale (volume p)) (take l d2))
           (set_callPos (Z.of_nat l) p') [].
Proof.
  intros Hs Hn Hd Hq p'.
  split; [|repeat split].
  - subst p'. destruct p; cbn in *; subst.
    unfold dequeue, py_pop, norm_index. cbn.
    unfold nextTrack. cbn. done.
  - intros l Hplay Hl.
    rewrite (writeToStream_inside p' 1 d2 l).
    + done.
    + done.
    + split; cbn; try done; lia.
    + lia.
    + cbn. lia.
Qed.
End Queue.

(** Witness for C3: three tracks of 4 frames. *)
Lemma dequeue_current_of_three_witness :
  let p := demo_player [ramp 10 4; ramp 20 4; ramp 30 4] [1; 1; 1] 1 2 in
  dequeue (PyInt 1) p
  = Returned tt
      (set_queuePos (Some 1)
         (set_callPos 0
            (set_data [ramp 10 4; ramp 30 4]
               (set_loops [1; 1] (set_sources ["track.wav"; "track.wav"] p)))))
      [[PyStr "next track"]].
Proof.
  refine (proj1 (dequeue_current_of_three
                   (demo_player [ramp 10 4; ramp 20 4; ramp 30 4] [1; 1; 1] 1 2)
                   "track.wav" "track.wav" "track.wav" 1 1 1
                   (ramp 10 4) (ramp 20 4) (ramp 30 4) _ _ _ _)); reflexivity.
Defined.

(** Witness for C4 as amended: the last of two tracks with three passes
    of the queue still to play; playback stops all the same. *)
Lemma nextTrack_advances_witness :
  let p := set_queueLoopsRemaining 3
             (set_queueLoops 3 (demo_player [ramp 10 4; ramp 20 4] [1; 1] 1 2)) in
  exists p',
    nextTrack p = Returned tt p' [[PyStr "next track"]]
    /\ callPos p' = 0
    /\ queuePos p' = Some 0
    /\ (1 = 2 - 1 /\ 3 <> 0 -> playing p' = false /\ queueLoopsRemaining p' = 3)
    /\ (~ (1 = 2 - 1 /\ 3 <> 0) -> playing p' = true /\ queueLoopsRemaining p' = 3).
Proof.
  apply (nextTrack_advances
           (set_queueLoopsRemaining 3
              (set_queueLoops 3 (demo_player [ramp 10 4; ramp 20 4] [1; 1] 1 2)))
           1); [discriminate|reflexivity].
Defined.

(** Counterexample to C4 as stated, at the last of two tracks while two
    repeats of the queue are still owed: [nextTrack] stops playback
    although queue looping is not exhausted. *)
Lemma nextTrack_counterexample :
  ~ (forall (p : Player Z) (q : Z),
       sources p <> [] ->
       queuePos p = Some q ->
       playing p = true ->
       (playing (state_after (nextTrack p)) = false
        <-> q = Z.of_nat (length (sources p)) - 1 /\ spec_queue_exhausted p)).
Proof.
  intros Hclaim.
  specialize (Hclaim
    (set_queueLoopsRemaining 3
       (set_queueLoops 3 (demo_player [ramp 10 4; ramp 20 4] [1; 1] 1 2))) 1).
  destruct Hclaim as [Hstop _]; try (discriminate || reflexivity).
  destruct Hstop as [_ Hex]; [reflexivity|].
  unfold spec_queue_exhausted in Hex. cbn in Hex. lia.
Qed.

(** ** Argument checks, seeking and shuffling *)

Section Checks.
Context {F : Type} `{Scalar F}.
Variable timeToSeconds : string -> Z.
Variable random_shuffle : list Z -> list Z.
Variable reorder : forall A : Type, list A -> list Z -> list A.
Variable open_file : string -> option (SoundFile (F:=F)).
Variable available : Z.
Variable resample : list (frame F) -> Z -> Z -> list (frame F).

Lemma isinstance_int_value (v : pyval) :
  isinstance_int v = false -> int_value v = None.
Proof. by destruct v. Qed.

(** C9, as amended: for the arguments the methods check ([dequeue] on an
    empty queue or with an explicit position that is no int or lies
    outside the queue, [loopTrack] and [loopQueue] with a loop count that
    is no int, [jumpTo] with a time that is neither int nor str,
    [queueSingle] with a source that is no str) the call prints one line,
    returns and leaves the player unchanged. *)
Theorem checked_arguments_rejected (p : Player F) (c : call) :
  checked_invalid p c = true ->
  exists v report,
    run timeToSeconds open_file available resample c p = Returned v p [report].
Proof.
  intros Hbad. destruct p.
  destruct c as [position|track loops_arg|loops_arg|timepos|source];
    cbn in Hbad.
  - (* dequeue *)
    unfold run, dequeue, bind, get, pln, ret. cbn.
    destruct (Nat.eqb (length sources0) 0) eqn:Hempty; cbn; [by eexists _, _|].
    cbn in Hbad. apply andb_prop in Hbad as [Hcur Hpos].
    apply negb_true_iff in Hcur. rewrite Hcur. cbn.
    destruct (int_value position) as [i|]; cbn; [|by eexists _, _].
    rewrite Hpos. cbn. by eexists _, _.
  - (* loopTrack *)
    apply negb_true_iff, isinstance_int_value in Hbad.
    unfold run, loopTrack, bind. rewrite Hbad. cbn. by eexists _, _.
  - (* loopQueue *)
    apply negb_true_iff, isinstance_int_value in Hbad.
    unfold run, loopQueue, bind. rewrite Hbad. cbn. by eexists _, _.
  - (* jumpTo *)
    unfold run, jumpTo. cbn.
    destruct timepos; try discriminate Hbad; cbn; by eexists _, _.
  - (* queueSingle *)
    unfold run, queueSingle.
    destruct source; try discriminate Hbad; cbn; by eexists _, _.
Qed.

(** C7: [jumpTo] with a time given as an int or as a string raises
    AttributeError where it reads [self.queuePos.value], whatever the track
    and the time, and [callPos] keeps its value. *)
Theorem jumpTo_raises (p : Player F) (timepos : pyval) :
  isinstance_int timepos || isinstance_str timepos = true ->
  jumpTo timeToSeconds timepos p = Raised AttributeError p [].
Proof.
  intros Hty. destruct p. unfold jumpTo, queuePos_value. cbn.
  destruct timepos; try discriminate Hty; cbn; by destruct queuePos0.
Qed.

(** C8: [shuffle] with [keepPos] true raises AttributeError where it reads
    [self.queuePos.value], before any list is reordered. *)
Theorem shuffle_keepPos_raises (p : Player F) :
  shuffle random_shuffle reorder true p = Raised AttributeError p [].
Proof.
  destruct p. unfold shuffle, queuePos_value. cbn. by destruct queuePos0.
Qed.

(** [dequeue] with its default argument meets the same attribute. *)
Lemma dequeue_current_raises (p : Player F) :
  sources p <> [] ->
  dequeue (PyStr "current") p = Raised AttributeError p [].
Proof.
  intros Hne. destruct p; cbn in *. unfold dequeue, queuePos_value. cbn.
  destruct sources0; [done|]. cbn. by destruct queuePos0.
Qed.

End Checks.

(** Witness for C9 as amended: [dequeue(5)] on a queue of two tracks. *)
Lemma checked_arguments_rejected_witness :
  let p := demo_player [ramp 10 4; ramp 20 4] [1; 1] 0 0 in
  exists v report, demo_run (Dequeue (PyInt 5)) p = Returned v p [report].
Proof.
  apply (checked_arguments_rejected (fun _ => 90) (fun _ => None) 0 (fun d _ _ => d)
           (demo_player [ramp 10 4; ramp 20 4] [1; 1] 0 0) (Dequeue (PyInt 5))).
  reflexivity.
Defined.

(** Counterexample to C9 as stated, a value out of range that no method
    checks: [loopTrack] with a track index outside the queue raises
    IndexError. *)
Lemma unchecked_arguments_counterexample :
  ~ (forall (p : Player Z) (c : call),
       spec_invalid p c = true ->
       exists v report, demo_run c p = Returned v p [report]).
Proof.
  intros Hclaim.
  destruct (Hclaim (demo_player [ramp 10 4; ramp 20 4] [1; 1] 0 0)
              (LoopTrack (PyInt 7) (PyInt 1))) as (v & report & Hrun);
    [reflexivity|].
  vm_compute in Hrun. discriminate Hrun.
Qed.

(** The two unchecked arguments, run: a track index outside the queue and
    a negative loop count. *)
Example loopTrack_out_of_range :
  let p := demo_player [ramp 10 4; ramp 20 4] [1; 1] 0 0 in
  loopTrack (PyInt 7) (PyInt 1) p = Raised IndexError p [].
Proof. reflexivity. Qed.

Example loopQueue_negative :
  let p := demo_player [ramp 10 4; ramp 20 4] [1; 1] 0 0 in
  loopQueue (PyInt (-1)) p
  = Returned tt (set_queueLoopsRemaining (-1) (set_queueLoops (-1) p)) [].
Proof. reflexivity. Qed.

(** Witness for C7: [jumpTo("1:30")] on a track of 100 seconds at
    44100 Hz; the call raises and [callPos] is not 90 * 44100. *)
Lemma jumpTo_raises_witness :
  let p := demo_player [replicate (Z.to_nat (100 * 44100)) (0, 0)] [1] 0 0 in
  jumpTo (fun _ => 90) (PyStr "1:30") p = Raised AttributeError p [].
Proof.
  apply (jumpTo_raises (fun _ => 90)
           (demo_player [replicate (Z.to_nat (100 * 44100)) (0, 0)] [1] 0 0)
           (PyStr "1:30")).
  reflexivity.
Defined.

(** ** Loading a file *)

Section Capacity.
Context {F : Type} `{Scalar F}.
Variable open_file : string -> option (SoundFile (F:=F)).
Variable available : Z.
Variable resample : list (frame F) -> Z -> Z -> list (frame F).

(** C5, as amended: for a file that opens, on a player that is not
    loading, [queueSingle] refuses the file with the capacity line exactly
    when frames * 4 * 8, that is 32 bytes for each frame, exceeds the
    available memory minus [ramBuffer]; a refusal returns False and leaves
    the whole player, the queue included, as it was. *)
Theorem capacity_check (p : Player F) (src : string) (f : SoundFile) :
  loading p = false ->
  open_file src = Some f ->
  let r := queueSingle open_file available resample (PyStr src) p in
  ((exists p' out, r = Returned false p' out /\ In capacity_line out)
   <-> frames f * 4 * 8 > available - ramBuffer p)
  /\ (frames f * 4 * 8 > available - ramBuffer p ->
      r = Returned false p
            [[PyStr ("Loading " ++ dq); PyStr src; PyStr (dq ++ "...")];
             capacity_line]).
Proof.
  intros Hload Hopen r.
  assert (Hbig : frames f * 4 * 8 > available - ramBuffer p ->
      r = Returned false p
            [[PyStr ("Loading " ++ dq); PyStr src; PyStr (dq ++ "...")];
             capacity_line]).
  { intros Hgt. subst r. destruct p; cbn in *; subst.
    unfold queueSingle, try_except_finally. cbn. rewrite Hopen. cbn.
    replace (frames f * 4 * 8 >? available - ramBuffer0) with true by lia.
    cbn. done. }
  split; [|done]. split.
  - intros (p' & out & Hr & Hin).
    destruct (Z.gtb_spec (frames f * 4 * 8) (available - ramBuffer p)) as [|Hle];
      [lia|].
    exfalso. subst r. revert Hr. destruct p; cbn in *; subst.
    unfold queueSingle, try_except_finally. cbn. rewrite Hopen. cbn.
    replace (frames f * 4 * 8 >? available - ramBuffer0) with false by lia.
    cbn. destruct (samplerate f =? 0); cbn; [discriminate|].
    destruct (samplingrate0 =? samplerate f); cbn;
      destruct (Nat.eqb (length sources0) 0); cbn; discriminate.
  - intros Hgt. exists p. eexists. split; [by apply Hbig|]. cbn. tauto.
Qed.
End Capacity.

(** The default headroom is 16 MiB. *)
Example default_ramBuffer : ramBuffer (init 1 0) = 16 * 1024 * 1024.
Proof. reflexivity. Qed.

(** Witness for C5 as amended: a file of one frame with 10 bytes free
    above the headroom. *)
Lemma capacity_check_witness :
  queueSingle (fun _ => Some one_frame_file) (16777216 + 10) (fun d _ _ => d)
    (PyStr "a.wav") (init 1 0)
  = Returned false (init 1 0)
      [[PyStr ("Loading " ++ dq); PyStr "a.wav"; PyStr (dq ++ "...")];
       capacity_line].
Proof.
  refine (proj2 (capacity_check (fun _ => Some one_frame_file) (16777216 + 10)
                   (fun d _ _ => d) (init 1 0) "a.wav" one_frame_file _ _) _);
    [reflexivity|reflexivity|cbn; lia].
Defined.

(** Counterexample to C5 as stated, the same file: its footprint of
    frames * 4 * 2 = 8 bytes fits into the 10 bytes, and it is refused all
    the same. *)
Lemma capacity_check_counterexample :
  ~ (forall (open_file : string -> option (SoundFile (F:=Z))) (available : Z)
            (p : Player Z) (src : string) (f : SoundFile),
       loading p = false ->
       open_file src = Some f ->
       ((exists p' out,
           queueSingle open_file available (fun d _ _ => d) (PyStr src) p
           = Returned false p' out /\ In capacity_line out)
        <-> spec_footprint (frames f) > available - ramBuffer p)).
Proof.
  intros Hclaim.
  destruct (Hclaim (fun _ => Some one_frame_file) (16777216 + 10) (init 1 0)
              "a.wav" one_frame_file) as [Hrefused _]; try reflexivity.
  assert (Hfits : spec_footprint (frames one_frame_file)
                  > 16777216 + 10 - ramBuffer (init 1 0)).
  { apply Hrefused. eexists _, _. split; [reflexivity|]. cbn. tauto. }
  vm_compute in Hfits. discriminate Hfits.
Qed.

(** ** Volume in decibels *)

Section Volume.
Local Open Scope R_scope.









End Volume.



(** * Further properties of the render callback *)

Section RenderMore.
Context {F : Type} `{Scalar F}.




(** X2: calls that stay inside the current track take its frames in order:
    [n] calls for [l] frames each write, block after block, the [n * l]
    frames from the cursor on, scaled by the volume, and move the cursor
    behind them. *)
Theorem render_calls_inside (n : nat) (p : Player F) (q : nat)
    (track : list (frame F)) (l : nat) :
  playing p = true ->
  cursor_ok p q track ->
  (0 < l)%nat ->
  callPos p + Z.of_nat (n * l) < Z.of_nat (length track) ->
  exists blocks,
    render_calls n l p
    = Returned blocks (set_callPos (callPos p + Z.of_nat (n * l)) p) []
    /\ Forall (fun b => length b = l) blocks
    /\ concat blocks
       = map (scale (volume p)) (take (n * l) (drop (Z.to_nat (callPos p)) track)).
Proof.
  revert p. induction n as [|n IH]; intros p Hplay Hok Hl Hin.
  - exists []. cbn. rewrite Z.add_0_r. split; [|by split].
    unfold ret. f_equal. by destruct p.
  - pose proof Hok as [Hq Hs Hd Hc].
    cbn [render_calls]. unfold bind at 1.
    rewrite (writeToStream_inside p q track l) by (done || lia).
    cbn [printed_before].
    set (p1 := set_callPos (callPos p + Z.of_nat l) p).
    destruct (IH p1) as (blocks & Hrun & Hlen & Hcat); try done.
    + split; cbn; try done. lia.
    + cbn. lia.
    + unfold bind at 1. rewrite Hrun. cbn.
      eexists. split; [|split].
      * f_equal. subst p1. destruct p. unfold set_callPos. cbn. f_equal. lia.
      * constructor; [|done].
        rewrite length_map, length_take, length_drop. lia.
      * cbn [concat]. rewrite Hcat. subst p1. cbn.
        rewrite <- map_app. f_equal.
        replace (Z.to_nat (callPos p + Z.of_nat l))
          with (Z.to_nat (callPos p) + l)%nat by lia.
        rewrite <- drop_drop, <- take_take_drop. done.
Qed.
End RenderMore.

(** * What the methods leave alone *)

Section Keeps.
Context {S : Type} (R : S -> S -> Prop).
Hypothesis R_refl : forall s, R s s.
Hypothesis R_trans : forall s1 s2 s3, R s1 s2 -> R s2 s3 -> R s1 s3.

Lemma keeps_ret {A} (a : A) : keeps R (ret a).
Proof. intros s. apply R_refl. Qed.

Lemma keeps_raise {A} (e : exn) : keeps R (raise (A:=A) e).
Proof. intros s. apply R_refl. Qed.

Lemma keeps_get : keeps R get.
Proof. intros s. apply R_refl. Qed.

Lemma keeps_pln (args : line) : keeps R (pln args).
Proof. intros s. apply R_refl. Qed.

Lemma keeps_or_raise {A} (e : exn) (o : option A) : keeps R (or_raise e o).
Proof. destruct o; [apply keeps_ret|apply keeps_raise]. Qed.

Lemma keeps_modify (f : S -> S) : (forall s, R s (f s)) -> keeps R (modify f).
Proof. intros Hf s. apply Hf. Qed.

Lemma keeps_bind {A B} (m : M S A) (k : A -> M S B) :
  keeps R m -> (forall a, keeps R (k a)) -> keeps R (bind m k).
Proof.
  intros Hm Hk s. unfold bind. specialize (Hm s).
  destruct (m s) as [a s1 o1|e s1 o1|s1 o1]; cbn in *; try done.
  rewrite state_after_printed_before. eapply R_trans; [done|apply Hk].
Qed.
End Keeps.

(** Breaks a method down into the steps that can change the state. *)
Ltac keeps_steps :=
  repeat first
    [ apply keeps_ret; done
    | apply keeps_raise; done
    | apply keeps_get; done
    | apply keeps_pln; done
    | apply keeps_or_raise; done
    | apply keeps_bind; [assumption| |intros ?]
    | match goal with
      | |- keeps _ (if ?b then _ else _) => destruct b
      | |- keeps _ (match ?o with _ => _ end) => destruct o
      end ].

Section RenderFrame.
Context {F : Type} `{Scalar F}.

Lemma same_tracks_refl (p : Player F) : same_tracks p p.
Proof. done. Qed.

Lemma same_tracks_trans (p1 p2 p3 : Player F) :
  same_tracks p1 p2 -> same_tracks p2 p3 -> same_tracks p1 p3.
Proof.
  intros (? & ? & ? & ?) (? & ? & ? & ?). repeat split; congruence.
Qed.

Lemma refill_keeps_tracks (l : nat) (dataOut : list (frame F)) :
  keeps same_tracks (refill l dataOut).
Proof. intros p. rewrite refill_state. apply same_tracks_refl. Qed.

Lemma writeToStream_keeps (l : nat) :
  keeps (same_tracks (F:=F)) (writeToStream l).
Proof.
  pose proof (same_tracks_refl) as Hr. pose proof (same_tracks_trans) as Ht.
  unfold writeToStream, stop, queuePos_int.
  keeps_steps; try (apply refill_keeps_tracks);
    try (apply keeps_modify; intros s; by repeat split).
Qed.

(** X6: the render callback never edits the tracks: however a call ends, the
    sources, the track data, the volume and [queueLoops] are what they
    were. *)
Theorem writeToStream_keeps_tracks (p : Player F) (l : nat) :
  let s := state_after (writeToStream l p) in
  sources s = sources p /\ data s = data p
  /\ volume s = volume p /\ queueLoops s = queueLoops p.
Proof. apply writeToStream_keeps. Qed.
End RenderFrame.

(** * Further properties of the queue editor *)

Section DequeueMore.
Context {F : Type} `{Scalar F}.

#[local] Arguments nextTrack : simpl never.

(** [dequeue] with a position inside the queue, up to the call of
    [nextTrack] that ends it when the current track was removed. *)
Lemma dequeue_run (p : Player F) (q pos : nat) :
  queue_ok p ->
  queuePos p = Some (Z.of_nat q) ->
  (pos < length (sources p))%nat ->
  let removed :=
    set_data (delete pos (data p))
      (set_loops (delete pos (loops p)) (set_sources (delete pos (sources p)) p)) in
  let moved :=
    if (pos <=? q)%nat then set_queuePos (Some (Z.of_nat q - 1)) removed
    else removed in
  let emptied :=
    if Nat.eqb (length (sources p)) 1
    then set_queuePos None (set_callPos 0 (set_playing false moved))
    else moved in
  dequeue (PyInt (Z.of_nat pos)) p
  = if Nat.eqb q pos then nextTrack emptied else Returned tt emptied [].
Proof.
  intros [Hlo Hda] Hq Hpos removed moved emptied.
  subst emptied moved removed.
  destruct p; cbn in *; subst.
  unfold dequeue, queuePos_int. cbn.
  replace (Nat.eqb (length sources0) 0) with false
    by (symmetry; apply Nat.eqb_neq; lia).
  cbn.
  replace ((Z.of_nat pos <? 0) || (Z.of_nat pos >=? Z.of_nat (length sources0)))
    with false by lia.
  cbn. rewrite !py_pop_nat by lia. cbn.
  replace (Nat.eqb (length (delete pos sources0)) 0)
    with (Nat.eqb (length sources0) 1).
  2:{ rewrite length_delete by (by apply lookup_lt_is_Some_2).
      remember (length sources0) as n eqn:Hn.
      destruct n as [|[|n]]; cbn; done || lia. }
  replace (Z.of_nat q =? Z.of_nat pos) with (Nat.eqb q pos).
  2:{ destruct (Nat.eqb_spec q pos), (Z.eqb_spec (Z.of_nat q) (Z.of_nat pos));
      done || lia. }
  replace (Z.of_nat q >=? Z.of_nat pos) with (pos <=? q)%nat.
  2:{ destruct (Nat.leb_spec pos q); lia. }
  destruct (pos <=? q)%nat, (Nat.eqb (length sources0) 1), (Nat.eqb q pos);
    cbn; rewrite ?printed_before_nil; done.
Qed.

Lemma queue_ok_delete (p p' : Player F) (pos : nat) :
  queue_ok p ->
  (pos < length (sources p))%nat ->
  sources p' = delete pos (sources p) ->
  loops p' = delete pos (loops p) ->
  data p' = delete pos (data p) ->
  queue_ok p'.
Proof.
  intros [Hlo Hda] Hpos Hs Hl Hd. unfold queue_ok. rewrite Hs, Hl, Hd.
  rewrite !length_delete by (apply lookup_lt_is_Some_2; lia). lia.
Qed.

(** X7: removing a track other than the current one: the track leaves the
    three lists, [queuePos] follows the current track (one down when the
    removed track was before it), and the current track, the cursor and
    the playing state are what they were. *)
Theorem dequeue_other_track (p : Player F) (q pos : nat) :
  queue_ok p ->
  queuePos p = Some (Z.of_nat q) ->
  (q < length (sources p))%nat ->
  (pos < length (sources p))%nat ->
  pos <> q ->
  let q' := if (pos <? q)%nat then (q - 1)%nat else q in
  exists p',
    dequeue (PyInt (Z.of_nat pos)) p = Returned tt p' []
    /\ sources p' = delete pos (sources p)
    /\ loops p' = delete pos (loops p)
    /\ data p' = delete pos (data p)
    /\ queue_ok p'
    /\ queuePos p' = Some (Z.of_nat q')
    /\ sources p' !! q' = sources p !! q
    /\ loops p' !! q' = loops p !! q
    /\ data p' !! q' = data p !! q
    /\ callPos p' = callPos p /\ playing p' = playing p.
Proof.
  intros Hok Hq Hqlt Hpos Hne q'.
  rewrite (dequeue_run p q pos) by done.
  replace (Nat.eqb q pos) with false by (symmetry; apply Nat.eqb_neq; lia).
  replace (Nat.eqb (length (sources p)) 1) with false
    by (symmetry; apply Nat.eqb_neq; lia).
  eexists. split; [done|].
  assert (Hlook : forall A (l : list A), delete pos l !! q' = l !! q).
  { intros A l. subst q'. destruct (Nat.ltb_spec pos q).
    - rewrite list_lookup_delete_ge by lia. f_equal. lia.
    - by rewrite list_lookup_delete_lt by lia. }
  subst q'.
  destruct (Nat.leb_spec pos q), (Nat.ltb_spec pos q); try lia; cbn;
    (do 3 (split; [done|])); (split; [by apply (queue_ok_delete p _ pos)|]);
    (split; [first [done | f_equal; lia]|]); by rewrite !Hlook.
Qed.

(** X8: removing the current track while others remain: the track leaves the
    three lists, [callPos] is 0 and [queuePos] points at the track that
    followed it, or at the first track when it was the last; in that last
    case playback stops and [queueLoopsRemaining] is reset unless the queue
    loops for ever. *)
Theorem dequeue_current_track (p : Player F) (q : nat) :
  queue_ok p ->
  queuePos p = Some (Z.of_nat q) ->
  (q < length (sources p))%nat ->
  (1 < length (sources p))%nat ->
  let last := Nat.eqb (S q) (length (sources p)) in
  let q' := if last then 0%nat else q in
  let stops := last && negb (queueLoopsRemaining p =? 0) in
  exists p',
    dequeue (PyInt (Z.of_nat q)) p = Returned tt p' [[PyStr "next track"]]
    /\ sources p' = delete q (sources p)
    /\ loops p' = delete q (loops p)
    /\ data p' = delete q (data p)
    /\ queue_ok p'
    /\ queuePos p' = Some (Z.of_nat q') /\ callPos p' = 0
    /\ data p' !! q' = data p !! (if last then 0%nat else S q)
    /\ playing p' = (if stops then false else playing p)
    /\ queueLoopsRemaining p'
       = (if stops then queueLoops p else queueLoopsRemaining p).
Proof.
  intros Hok Hq Hqlt Hlen last q' stops.
  rewrite (dequeue_run p q q) by done.
  rewrite Nat.eqb_refl, Nat.leb_refl.
  replace (Nat.eqb (length (sources p)) 1) with false
    by (symmetry; apply Nat.eqb_neq; lia).
  assert (Hrest : length (delete q (sources p)) = (length (sources p) - 1)%nat)
    by (apply length_delete; by apply lookup_lt_is_Some_2).
  rewrite (nextTrack_run _ (Z.of_nat q - 1)); cbn; [| |done].
  2:{ intros Hnil. rewrite Hnil in Hrest. cbn in Hrest. lia. }
  rewrite Hrest.
  eexists. split; [done|].
  assert (Hstop : (Z.of_nat q - 1 =? Z.of_nat (length (sources p) - 1) - 1)
                  && negb (queueLoopsRemaining p =? 0) = stops).
  { subst stops last. f_equal.
    destruct (Nat.eqb_spec (S q) (length (sources p)));
      [apply Z.eqb_eq|apply Z.eqb_neq]; lia. }
  rewrite Hstop.
  assert (Hmod : (Z.of_nat q - 1 + 1) mod Z.of_nat (length (sources p) - 1)
                 = Z.of_nat q').
  { subst q' last. destruct (Nat.eqb_spec (S q) (length (sources p))) as [He|He].
    - replace (Z.of_nat q - 1 + 1) with (Z.of_nat (length (sources p) - 1)) by lia.
      apply Z.mod_same. lia.
    - replace (Z.of_nat q - 1 + 1) with (Z.of_nat q) by lia.
      apply Z.mod_small. lia. }
  rewrite Hmod.
  assert (Hlook : delete q (data p) !! q' = data p !! (if last then 0%nat else S q)).
  { subst q' last. destruct (Nat.eqb_spec (S q) (length (sources p))).
    - by rewrite list_lookup_delete_lt by lia.
    - by rewrite list_lookup_delete_ge by lia. }
  destruct stops; cbn -[Nat.eqb];
    (do 3 (split; [done|])); (split; [by apply (queue_ok_delete p _ q)|]); done.
Qed.

(** X9: removing the only track: the queue is empty, playback is stopped,
    [queuePos] is None and [callPos] 0; the call of [nextTrack] that
    follows finds the queue empty and prints its warning. *)
Theorem dequeue_only_track (p : Player F) :
  queue_ok p ->
  queuePos p = Some 0 ->
  length (sources p) = 1%nat ->
  exists p',
    dequeue (PyInt 0) p
    = Returned tt p' [[PyStr "You must add an audio track to the queue first."]]
    /\ sources p' = [] /\ loops p' = [] /\ data p' = []
    /\ queuePos p' = None /\ callPos p' = 0 /\ playing p' = false.
Proof.
  intros [Hlo Hda] Hq Hlen.
  change (PyInt 0) with (PyInt (Z.of_nat 0)).
  rewrite (dequeue_run p 0 0); [|done|done|lia].
  rewrite Hlen. cbn.
  destruct p; cbn in *.
  destruct sources0 as [|? [|? ?]], loops0 as [|? [|? ?]], data0 as [|? [|? ?]];
    try discriminate.
  unfold nextTrack. cbn. eexists. by repeat split.
Qed.
End DequeueMore.

(** * Further properties of loading *)

Section LoadMore.
Context {F : Type} `{Scalar F}.
Variable open_file : string -> option (SoundFile (F:=F)).
Variable available : Z.
Variable resample : list (frame F) -> Z -> Z -> list (frame F).

(** [queueSingle] on a file that opens and fits. *)
Lemma queueSingle_run (p : Player F) (src : string) (f : SoundFile) :
  loading p = false ->
  open_file src = Some f ->
  frames f * 4 * 8 <= available - ramBuffer p ->
  samplerate f <> 0 ->
  exists out,
    queueSingle open_file available resample (PyStr src) p
    = Returned true
        (set_data (data p ++ [loaded_track resample (samplingrate p) f])
           (set_loops (loops p ++ [1])
              (set_sources (sources p ++ [src])
                 (if Nat.eqb (length (sources p)) 0
                  then set_queuePos (Some 0) p else p))))
        out.
Proof.
  intros Hload Hopen Hfit Hrate. unfold loaded_track.
  destruct p; cbn in *; subst.
  unfold queueSingle, try_except_finally. cbn. rewrite Hopen. cbn.
  replace (frames f * 4 * 8 >? available - ramBuffer0) with false by lia.
  cbn. replace (samplerate f =? 0) with false by lia. cbn.
  destruct (samplingrate0 =? samplerate f); cbn;
    destruct (Nat.eqb (length sources0) 0); cbn; by eexists.
Qed.

(** X10: a file that opens and fits is appended: [queueSingle] returns True,
    the source, a loop counter of 1 and the decoded track are added at the
    end of the three lists, [queuePos] becomes 0 when the queue was empty
    and is left alone otherwise, and nothing else changes. *)
Theorem queueSingle_appends (p : Player F) (src : string) (f : SoundFile) :
  loading p = false ->
  open_file src = Some f ->
  frames f * 4 * 8 <= available - ramBuffer p ->
  samplerate f <> 0 ->
  let track := loaded_track resample (samplingrate p) f in
  let p' :=
    set_data (data p ++ [track])
      (set_loops (loops p ++ [1])
         (set_sources (sources p ++ [src])
            (if Nat.eqb (length (sources p)) 0 then set_queuePos (Some 0) p
             else p))) in
  (exists out,
     queueSingle open_file available resample (PyStr src) p = Returned true p' out)
  /\ (queue_ok p ->
      queue_ok p'
      /\ sources p' !! length (sources p) = Some src
      /\ loops p' !! length (sources p) = Some 1
      /\ data p' !! length (sources p) = Some track).
Proof.
  intros Hload Hopen Hfit Hrate track p'. split.
  - by apply queueSingle_run.
  - intros [Hlo Hda]. subst p'. cbn. split; [|split; [|split]].
    + unfold queue_ok. cbn. rewrite !length_app. cbn.
      destruct (Nat.eqb (length (sources p)) 0); cbn; lia.
    + destruct (Nat.eqb (length (sources p)) 0); cbn;
        by apply list_lookup_middle.
    + destruct (Nat.eqb (length (sources p)) 0); cbn;
        by apply list_lookup_middle.
    + destruct (Nat.eqb (length (sources p)) 0); cbn;
        by apply list_lookup_middle.
Qed.

(** X11: a source that is no audio file is reported and refused: [queueSingle]
    returns False and the player is what it was. *)
Theorem queueSingle_missing_file (p : Player F) (src : string) :
  loading p = false ->
  open_file src = None ->
  queueSingle open_file available resample (PyStr src) p
  = Returned false p
      [[PyStr ("Loading " ++ dq); PyStr src; PyStr (dq ++ "...")];
       [PyStr ("Selected source file: " ++ dq); PyStr src;
        PyStr (dq ++ " is not an existing audio file.")]].
Proof.
  intros Hload Hopen. destruct p; cbn in *; subst.
  unfold queueSingle, try_except_finally. cbn. rewrite Hopen. cbn. done.
Qed.

(** X12: once [queueSingle] has got past the wait for a pending load, it never
    leaves the [loading] flag set, whether it returns or raises. *)
Theorem queueSingle_clears_loading (p : Player F) (src : string) :
  loading p && negb (end_ p) = false ->
  loading (state_after
             (queueSingle open_file available resample (PyStr src) p)) = false.
Proof.
  intros Hgo. destruct p; cbn in *.
  unfold queueSingle, try_except_finally. cbn.
  destruct loading0; cbn in *; rewrite ?Hgo; cbn;
    (destruct (open_file src) as [f|]; cbn; [|done]);
    (destruct (frames f * 4 * 8 >? available - ramBuffer0); cbn; [done|]);
    (destruct (samplerate f =? 0); cbn; [done|]);
    destruct (samplingrate0 =? samplerate f); cbn;
    destruct (Nat.eqb (length sources0) 0); cbn; done.
Qed.

End LoadMore.

(** * Further properties of the transport *)

Section TransportMore.
Context {F : Type} `{Scalar F}.

(** X14: on a queue that is not empty, toggling playback twice leaves the
    player exactly as it was. *)
Theorem playPause_twice (p : Player F) :
  sources p <> [] ->
  (playPause ;; playPause) p = Returned tt p [].
Proof.
  intros Hne. destruct p; cbn in *.
  destruct sources0 as [|s0 rest]; [done|].
  unfold playPause, play, pause. by destruct playing0.
Qed.

(** X15: [k] calls of [nextTrack] on a queue of [n] tracks move [queuePos]
    forward by [k] modulo [n], put the cursor at 0 and leave the three
    lists alone; so [n] calls bring the player back to the track it was
    on. *)
Theorem nextTrack_repeated (k : nat) (p : Player F) (q : Z) :
  let n := Z.of_nat (length (sources p)) in
  queuePos p = Some q ->
  0 <= q < n ->
  exists p' out,
    repeated k nextTrack p = Returned tt p' out
    /\ queuePos p' = Some ((q + Z.of_nat k) mod n)
    /\ sources p' = sources p /\ loops p' = loops p /\ data p' = data p
    /\ ((0 < k)%nat -> callPos p' = 0).
Proof.
  revert p q. induction k as [|k IH]; intros p q n Hq Hrange.
  - exists p, []. cbn. rewrite Z.add_0_r, Z.mod_small by done.
    repeat split; try done. lia.
  - assert (Hne : sources p <> []) by (destruct (sources p); cbn in *; [lia|done]).
    cbn [repeated]. unfold bind at 1.
    rewrite (nextTrack_run p q Hne Hq). cbn [printed_before]. fold n.
    set (p1 := set_queuePos _ _).
    assert (Hs1 : sources p1 = sources p /\ loops p1 = loops p /\ data p1 = data p
                  /\ callPos p1 = 0).
    { subst p1. by destruct (_ && _). }
    destruct Hs1 as (Hs1 & Hl1 & Hd1 & Hc1).
    destruct (IH p1 ((q + 1) mod n)) as (p' & out & Hrun & Hq' & Hs' & Hl' & Hd' & Hc').
    + subst p1. by destruct (_ && _).
    + rewrite Hs1. fold n. apply Z.mod_pos_bound. lia.
    + rewrite Hrun. cbn. eexists _, _. split; [done|].
      rewrite Hs1 in Hq'. fold n in Hq'.
      split; [|repeat split; try congruence].
      * rewrite Hq', Zplus_mod_idemp_l. f_equal. f_equal. lia.
      * intros _. destruct k; [|apply Hc'; lia].
        cbn in Hrun. injection Hrun as <- _. done.
Qed.

(** X16: [loopTrack] with an int count and the index of a queued track sets
    the counter of that track and nothing else; without a track it sets
    the counter of the current track. *)
Theorem loopTrack_sets_counter (p : Player F) (track : pyval) (i : nat) (n : Z) :
  (track = PyInt (Z.of_nat i)
   \/ (track = PyNone /\ queuePos p = Some (Z.of_nat i))) ->
  (i < length (loops p))%nat ->
  let p' := set_loops (<[i:=n]> (loops p)) p in
  loopTrack track (PyInt n) p = Returned tt p' []
  /\ loops p' !! i = Some n
  /\ (forall j, j <> i -> loops p' !! j = loops p !! j)
  /\ length (loops p') = length (loops p).
Proof.
  intros Htrack Hi p'. split; [|split; [|split]].
  - subst p'. destruct p; cbn in *.
    unfold loopTrack. cbn.
    destruct Htrack as [->|[-> ->]]; cbn; by rewrite py_setitem_nat.
  - cbn. by apply list_lookup_insert_eq.
  - intros j Hj. cbn. by apply list_lookup_insert_ne.
  - cbn. apply length_insert.
Qed.
End TransportMore.

(** * Further properties of the volume *)

Section VolumeMore.
Local Open Scope R_scope.







End VolumeMore.

(** * The settings thread *)

Section Fade.
Local Open Scope R_scope.
















End Fade.

(** * The further properties at concrete players *)


(** Witness for X2: one track of 10 frames, three calls for 3 frames each. *)
Lemma render_calls_inside_witness :
  let p := demo_player [ramp 10 10] [1] 0 0 in
  exists blocks,
    render_calls 3 3 p = Returned blocks (set_callPos (0 + Z.of_nat (3 * 3)) p) []
    /\ Forall (fun b => length b = 3%nat) blocks
    /\ concat blocks
       = map (scale 1) (take (3 * 3) (drop (Z.to_nat 0) (ramp 10 10))).
Proof.
  apply (render_calls_inside 3 (demo_player [ramp 10 10] [1] 0 0) 0%nat
           (ramp 10 10) 3%nat).
  - reflexivity.
  - split; cbn; [reflexivity|lia|reflexivity|lia].
  - lia.
  - cbn. lia.
Defined.




(** Witness for X7: three tracks with the second one current: the first one
    is removed. *)
Lemma dequeue_other_track_witness :
  let p := demo_player [ramp 10 4; ramp 20 4; ramp 30 4] [1; 2; 3] 1 2 in
  exists p',
    dequeue (PyInt 0) p = Returned tt p' []
    /\ sources p' = ["track.wav"; "track.wav"]
    /\ loops p' = [2; 3]
    /\ data p' = [ramp 20 4; ramp 30 4]
    /\ queue_ok p'
    /\ queuePos p' = Some 0
    /\ sources p' !! 0%nat = Some "track.wav"
    /\ loops p' !! 0%nat = Some 2
    /\ data p' !! 0%nat = Some (ramp 20 4)
    /\ callPos p' = 2 /\ playing p' = true.
Proof.
  refine (dequeue_other_track
            (demo_player [ramp 10 4; ramp 20 4; ramp 30 4] [1; 2; 3] 1 2)
            1%nat 0%nat _ _ _ _ _).
  - split; reflexivity.
  - reflexivity.
  - cbn. lia.
  - cbn. lia.
  - lia.
Defined.

(** Witness for X8: three tracks with the last one current: removing it
    stops playback and goes back to the first track. *)
Lemma dequeue_current_track_witness :
  let p := demo_player [ramp 10 4; ramp 20 4; ramp 30 4] [1; 2; 3] 2 2 in
  exists p',
    dequeue (PyInt 2) p = Returned tt p' [[PyStr "next track"]]
    /\ sources p' = ["track.wav"; "track.wav"]
    /\ loops p' = [1; 2]
    /\ data p' = [ramp 10 4; ramp 20 4]
    /\ queue_ok p'
    /\ queuePos p' = Some 0 /\ callPos p' = 0
    /\ data p' !! 0%nat = Some (ramp 10 4)
    /\ playing p' = false
    /\ queueLoopsRemaining p' = 1.
Proof.
  refine (dequeue_current_track
            (demo_player [ramp 10 4; ramp 20 4; ramp 30 4] [1; 2; 3] 2 2) 2%nat
            _ _ _ _).
  - split; reflexivity.
  - reflexivity.
  - cbn. lia.
  - cbn. lia.
Defined.

(** Witness for X9: the only track of a queue is removed. *)
Lemma dequeue_only_track_witness :
  exists p',
    dequeue (PyInt 0) (demo_player [ramp 10 4] [1] 0 2)
    = Returned tt p' [[PyStr "You must add an audio track to the queue first."]]
    /\ sources p' = [] /\ loops p' = [] /\ data p' = []
    /\ queuePos p' = None /\ callPos p' = 0 /\ playing p' = false.
Proof.
  apply (dequeue_only_track (demo_player [ramp 10 4] [1] 0 2)).
  - split; reflexivity.
  - reflexivity.
  - reflexivity.
Defined.

(** Witness for X10: a new player loads a file of one stereo frame. *)
Lemma queueSingle_appends_witness :
  exists out,
    queueSingle (fun _ => Some one_frame_file) (16777216 + 32) (fun d _ _ => d)
      (PyStr "a.wav") (init 1 0)
    = Returned true
        (set_data [[(1, 1)]]
           (set_loops [1] (set_sources ["a.wav"] (set_queuePos (Some 0) (init 1 0)))))
        out.
Proof.
  refine (proj1 (queueSingle_appends (fun _ => Some one_frame_file)
                   (16777216 + 32) (fun d _ _ => d) (init 1 0) "a.wav"
                   one_frame_file _ _ _ _)).
  - reflexivity.
  - reflexivity.
  - cbn. lia.
  - cbn. lia.
Defined.

(** Witness for X11: a new player is asked for a file that does not open. *)
Lemma queueSingle_missing_file_witness :
  queueSingle (fun _ => None) 0 (fun d _ _ => d) (PyStr "a.wav") (init 1 0)
  = Returned false (init 1 0)
      [[PyStr ("Loading " ++ dq); PyStr "a.wav"; PyStr (dq ++ "...")];
       [PyStr ("Selected source file: " ++ dq); PyStr "a.wav";
        PyStr (dq ++ " is not an existing audio file.")]].
Proof.
  apply (queueSingle_missing_file (fun _ => None) 0 (fun d _ _ => d)
           (init 1 0) "a.wav"); reflexivity.
Defined.

(** Witness for X12: a new player is asked for a file that is too large. *)
Lemma queueSingle_clears_loading_witness :
  loading (state_after
             (queueSingle (fun _ => Some one_frame_file) 0 (fun d _ _ => d)
                (PyStr "a.wav") (init 1 0))) = false.
Proof.
  apply (queueSingle_clears_loading (fun _ => Some one_frame_file) 0
           (fun d _ _ => d) (init 1 0) "a.wav").
  reflexivity.
Defined.


(** Witness for X14: a playing player with two tracks. *)
Lemma playPause_twice_witness :
  let p := demo_player [ramp 10 4; ramp 20 4] [1; 1] 0 2 in
  (playPause ;; playPause) p = Returned tt p [].
Proof.
  apply (playPause_twice (demo_player [ramp 10 4; ramp 20 4] [1; 1] 0 2)).
  discriminate.
Defined.

(** Witness for X15: three tracks with the second one current, three calls. *)
Lemma nextTrack_repeated_witness :
  let p := demo_player [ramp 10 4; ramp 20 4; ramp 30 4] [1; 1; 1] 1 2 in
  exists p' out,
    repeated 3 nextTrack p = Returned tt p' out
    /\ queuePos p' = Some 1
    /\ sources p' = sources p /\ loops p' = loops p /\ data p' = data p
    /\ ((0 < 3)%nat -> callPos p' = 0).
Proof.
  refine (nextTrack_repeated 3
            (demo_player [ramp 10 4; ramp 20 4; ramp 30 4] [1; 1; 1] 1 2) 1 _ _).
  - reflexivity.
  - cbn. lia.
Defined.

(** Witness for X16: the counter of the current track of two is set to 5. *)
Lemma loopTrack_sets_counter_witness :
  let p := demo_player [ramp 10 4; ramp 20 4] [1; 1] 1 0 in
  loopTrack PyNone (PyInt 5) p = Returned tt (set_loops [1; 5] p) [].
Proof.
  refine (proj1 (loopTrack_sets_counter
                   (demo_player [ramp 10 4; ramp 20 4] [1; 1] 1 0)
                   PyNone 1%nat 5 _ _)).
  - right. split; reflexivity.
  - cbn. lia.
Defined.




